(** * Support-specialist hint and feedback system: authorization and delivery pipeline

    A shallow embedding of the backend of the repository
    ([middleware/authMiddleware.ts], [controllers/hintController.ts],
    [controllers/progressController.ts], [services/auditLogger.ts],
    [services/notificationService.ts] and the router) and the properties of
    the pipeline that the specification states.

    Conventions of the embedding:
    - a JavaScript value that may be [undefined] is an [option]; a string is
      falsy exactly when it is absent or empty;
    - dates are milliseconds since the epoch, in [Z];
    - the Prisma tables are lists in insertion order; the connection
      directory [Map<string, Set<string>>] is a [gmap] from user id to the
      socket ids in insertion order;
    - an [async] function is a computation over the [World] that either
      returns or throws. *)

From stdpp Require Import base option list strings gmap sorting pretty.
From Stdlib Require Import ZArith.

Open Scope string_scope.

(** ** Data model *)

(** [enum UserRole] of authMiddleware.ts. *)
Inductive UserRole := USER | SUPPORT_SPECIALIST | ADMIN.

(** The string value of each enum member, as the controllers compare roles
    against string literals. *)
Definition role_value (r : UserRole) : string :=
  match r with
  | USER => "user"
  | SUPPORT_SPECIALIST => "support_specialist"
  | ADMIN => "admin"
  end.

#[global] Instance UserRole_eq_dec : EqDecision UserRole.
Proof. solve_decision. Defined.

(** [req.user] of [AuthenticatedRequest]. *)
Record Actor := { actor_id : string; actor_role : UserRole }.

Record User := { user_id : string; username : string }.

Inductive RequestStatus := OPEN | CLOSED.

Record SupportRequest := {
  sr_id : string;
  sr_userId : string;
  sr_status : RequestStatus;
  sr_createdAt : Z
}.

Inductive HintStatus := UNREAD | VIEWED.

Record Hint := {
  hint_id : string;
  hint_userId : string;
  hint_supportRequestId : string;
  hint_stepId : string;
  hint_puzzleId : option string;
  hint_message : string;
  hint_sentById : option string;
  hint_sentByRole : option string;
  hint_status : HintStatus;
  hint_createdAt : Z;
  hint_viewedAt : option Z
}.

Record ProgressLog := {
  pl_id : string;
  pl_userId : string;
  pl_stepId : string;
  pl_puzzleId : option string;
  pl_status : string;
  pl_updatedAt : Z;
  pl_details : string
}.

(** The action tags written by the four controllers. *)
Inductive AuditAction := VIEW_USER_PROGRESS | SEND_HINT | VIEW_HINT_LIST | VIEW_HINT.

(** A value of an audit metadata object. *)
Inductive MetaValue := MString (s : string) | MDate (t : Z) | MUndefined.

(** [AuditLogParams] of auditLogger.ts. The actor fields are strings there:
    ['unknown'] stands in for a missing actor. *)
Record AuditLogParams := {
  p_actorId : string;
  p_actorRole : string;
  p_action : AuditAction;
  p_targetUserId : option string;
  p_metadata : option (list (string * MetaValue))
}.

(** A row of the audit table; [al_metadata] holds the object that the code
    serialises with [JSON.stringify]. *)
Record AuditLog := {
  al_actorId : string;
  al_actorRole : string;
  al_action : AuditAction;
  al_targetUserId : option string;
  al_metadata : option (list (string * MetaValue));
  al_timestamp : Z
}.

Inductive NotificationType := HINT | FEEDBACK | GENERIC.

(** [NotificationPayload] of notificationService.ts. *)
Record NotificationPayload := {
  n_type : NotificationType;
  n_hintId : option string;
  n_message : string;
  n_stepId : option string;
  n_puzzleId : option string;
  n_sentAt : option Z
}.

(** A thrown JavaScript error, by its message. *)
Definition Error := string.

Inductive ConsoleLevel := ConsoleLog | ConsoleWarn | ConsoleError.

Record ConsoleEntry := {
  ce_level : ConsoleLevel;
  ce_text : string;
  ce_error : option Error
}.

(** ** The world the backend runs in

    The five Prisma tables, the module state of notificationService.ts
    ([io], [userSocketMap]), what has been emitted on sockets, the console,
    and the environment: the clock read by [new Date()], the ids the
    database assigns to new rows, and whether the audit store currently
    rejects writes. *)
Record World := {
  users : list User;
  supportRequests : list SupportRequest;
  hints : list Hint;
  progressLogs : list ProgressLog;
  auditLogs : list AuditLog;
  auditStoreError : option Error;
  clock : Z;
  idGen : nat → string;
  idSeq : nat;
  io : bool;
  userSocketMap : gmap string (list string);
  emitted : list (string * NotificationPayload);
  console : list ConsoleEntry
}.

Definition set_hints (hs : list Hint) (w : World) : World :=
  {| users := users w; supportRequests := supportRequests w; hints := hs;
     progressLogs := progressLogs w; auditLogs := auditLogs w;
     auditStoreError := auditStoreError w; clock := clock w;
     idGen := idGen w; idSeq := idSeq w; io := io w;
     userSocketMap := userSocketMap w; emitted := emitted w;
     console := console w |}.

Definition set_idSeq (n : nat) (w : World) : World :=
  {| users := users w; supportRequests := supportRequests w; hints := hints w;
     progressLogs := progressLogs w; auditLogs := auditLogs w;
     auditStoreError := auditStoreError w; clock := clock w;
     idGen := idGen w; idSeq := n; io := io w;
     userSocketMap := userSocketMap w; emitted := emitted w;
     console := console w |}.

Definition set_auditLogs (ls : list AuditLog) (w : World) : World :=
  {| users := users w; supportRequests := supportRequests w; hints := hints w;
     progressLogs := progressLogs w; auditLogs := ls;
     auditStoreError := auditStoreError w; clock := clock w;
     idGen := idGen w; idSeq := idSeq w; io := io w;
     userSocketMap := userSocketMap w; emitted := emitted w;
     console := console w |}.

Definition set_auditStoreError (e : option Error) (w : World) : World :=
  {| users := users w; supportRequests := supportRequests w; hints := hints w;
     progressLogs := progressLogs w; auditLogs := auditLogs w;
     auditStoreError := e; clock := clock w;
     idGen := idGen w; idSeq := idSeq w; io := io w;
     userSocketMap := userSocketMap w; emitted := emitted w;
     console := console w |}.

Definition set_io (b : bool) (w : World) : World :=
  {| users := users w; supportRequests := supportRequests w; hints := hints w;
     progressLogs := progressLogs w; auditLogs := auditLogs w;
     auditStoreError := auditStoreError w; clock := clock w;
     idGen := idGen w; idSeq := idSeq w; io := b;
     userSocketMap := userSocketMap w; emitted := emitted w;
     console := console w |}.

Definition set_userSocketMap (m : gmap string (list string)) (w : World) : World :=
  {| users := users w; supportRequests := supportRequests w; hints := hints w;
     progressLogs := progressLogs w; auditLogs := auditLogs w;
     auditStoreError := auditStoreError w; clock := clock w;
     idGen := idGen w; idSeq := idSeq w; io := io w;
     userSocketMap := m; emitted := emitted w;
     console := console w |}.

Definition set_emitted (es : list (string * NotificationPayload)) (w : World) : World :=
  {| users := users w; supportRequests := supportRequests w; hints := hints w;
     progressLogs := progressLogs w; auditLogs := auditLogs w;
     auditStoreError := auditStoreError w; clock := clock w;
     idGen := idGen w; idSeq := idSeq w; io := io w;
     userSocketMap := userSocketMap w; emitted := es;
     console := console w |}.

Definition set_console (c : list ConsoleEntry) (w : World) : World :=
  {| users := users w; supportRequests := supportRequests w; hints := hints w;
     progressLogs := progressLogs w; auditLogs := auditLogs w;
     auditStoreError := auditStoreError w; clock := clock w;
     idGen := idGen w; idSeq := idSeq w; io := io w;
     userSocketMap := userSocketMap w; emitted := emitted w;
     console := c |}.

Definition set_clock (t : Z) (w : World) : World :=
  {| users := users w; supportRequests := supportRequests w; hints := hints w;
     progressLogs := progressLogs w; auditLogs := auditLogs w;
     auditStoreError := auditStoreError w; clock := t;
     idGen := idGen w; idSeq := idSeq w; io := io w;
     userSocketMap := userSocketMap w; emitted := emitted w;
     console := console w |}.

(** ** Computations that may throw *)

Inductive Outcome (A : Type) := Ok (a : A) | Throw (e : Error).
Arguments Ok {A} a.
Arguments Throw {A} e.

Definition M (A : Type) : Type := World → Outcome A * World.

#[global] Instance M_ret : MRet M := λ A a w, (Ok a, w).

#[global] Instance M_bind : MBind M := λ A B f m w,
  match m w with
  | (Ok a, w') => f a w'
  | (Throw e, w') => (Throw e, w')
  end.

Definition throw {A} (e : Error) : M A := λ w, (Throw e, w).

(** [try { body } catch (error) { handler error }]. *)
Definition try_catch {A} (body : M A) (handler : Error → M A) : M A := λ w,
  match body w with
  | (Ok a, w') => (Ok a, w')
  | (Throw e, w') => handler e w'
  end.

Definition get_world : M World := λ w, (Ok w, w).

Definition modify (f : World → World) : M unit := λ w, (Ok tt, f w).

(** [new Date()]. *)
Definition new_Date : M Z := λ w, (Ok (clock w), w).

Definition console_write (l : ConsoleLevel) (text : string) (e : option Error) : M unit :=
  modify (λ w, set_console (console w ++ [{| ce_level := l; ce_text := text; ce_error := e |}]) w).

Definition console_error (text : string) (e : option Error) : M unit :=
  console_write ConsoleError text e.

Definition console_warn (text : string) : M unit :=
  console_write ConsoleWarn text None.

(** JavaScript truthiness of a possibly absent string. *)
Definition truthy (s : option string) : bool :=
  match s with
  | Some s => negb (String.eqb s "")
  | None => false
  end.

(** [a || b] on possibly absent strings. *)
Definition js_or (a b : option string) : option string :=
  if truthy a then a else b.

(** [a || 'literal']. *)
Definition js_or_default (a : option string) (d : string) : string :=
  match a with
  | Some s => if String.eqb s "" then d else s
  | None => d
  end.

(** [a || null]; [null] and [undefined] are both [None]. *)
Definition js_or_null (a : option string) : option string :=
  if truthy a then a else None.

(** ** The Prisma client

    The Prisma schema and client are not part of the sources; the
    operations below are the boundary operations of the Support Record
    Store as the specification lists them, with the arguments the
    controllers pass. The tables are lists in insertion order. A query
    returns; only the calls that Prisma rejects by its contract throw: an
    update of a row that does not exist and, for the audit client, any write
    while the audit store is failing. *)

Section OrderBy.
Context {A : Type} (key : A → Z).

(** Insertion into a list that is descending in [key], before the first
    element whose key is not greater. *)
Fixpoint insertDesc (x : A) (l : list A) : list A :=
  match l with
  | [] => [x]
  | y :: l' => if (key y <=? key x)%Z then x :: y :: l' else y :: insertDesc x l'
  end.

(** [orderBy: [{ key: 'desc' }]]: rows with equal keys keep their
    insertion order. *)
Definition orderByDesc (l : list A) : list A := foldr insertDesc [] l.

(** The order of a list that is descending in [key]. *)
Definition desc (a b : A) : Prop := (key b ≤ key a)%Z.
End OrderBy.

(** Modelled from the spec: the store operation [findUser(id) -> User | none],
    called as [prisma.user.findUnique({ where: { id } })]. *)
Definition prisma_user_findUnique (id : string) : M (option User) := λ w,
  (Ok (find (λ u, String.eqb (user_id u) id) (users w)), w).

Definition isOpen (r : SupportRequest) : bool :=
  match sr_status r with OPEN => true | CLOSED => false end.

(** Modelled from the spec: the store operation [findOpenSupportRequest(userId)],
    first match if several, called as
    [prisma.supportRequest.findFirst({ where: { userId, status: 'OPEN' } })]. *)
Definition prisma_supportRequest_findFirst_open (userId : string) : M (option SupportRequest) := λ w,
  (Ok (find (λ r, String.eqb (sr_userId r) userId && isOpen r) (supportRequests w)), w).

(** The [data] of [prisma.hint.create]. *)
Record HintData := {
  d_userId : string;
  d_supportRequestId : string;
  d_stepId : string;
  d_puzzleId : option string;
  d_message : string;
  d_sentById : option string;
  d_sentByRole : option string;
  d_status : HintStatus
}.

(** Modelled from the spec: the store operation [createHint(fields) -> Hint],
    called as [prisma.hint.create({ data })]; the database assigns the id and
    the creation time, and [viewedAt] starts out null. *)
Definition prisma_hint_create (d : HintData) : M Hint := λ w,
  let h := {| hint_id := idGen w (idSeq w);
              hint_userId := d_userId d;
              hint_supportRequestId := d_supportRequestId d;
              hint_stepId := d_stepId d;
              hint_puzzleId := d_puzzleId d;
              hint_message := d_message d;
              hint_sentById := d_sentById d;
              hint_sentByRole := d_sentByRole d;
              hint_status := d_status d;
              hint_createdAt := clock w;
              hint_viewedAt := None |} in
  (Ok h, set_idSeq (S (idSeq w)) (set_hints (hints w ++ [h]) w)).

(** Modelled from the spec: the store operation [findHints(userId)], called as
    [prisma.hint.findMany({ where: { userId }, orderBy: [{ createdAt: 'desc' }] })]. *)
Definition prisma_hint_findMany (userId : string) : M (list Hint) := λ w,
  (Ok (orderByDesc hint_createdAt
         (filter (λ h, hint_userId h = userId) (hints w))), w).

(** Modelled from the spec: the store operation [findHint(id) -> Hint | none],
    called as [prisma.hint.findUnique({ where: { id } })]. *)
Definition prisma_hint_findUnique (id : string) : M (option Hint) := λ w,
  (Ok (find (λ h, String.eqb (hint_id h) id) (hints w)), w).

Definition with_viewed (st : HintStatus) (at_ : option Z) (h : Hint) : Hint :=
  {| hint_id := hint_id h;
     hint_userId := hint_userId h;
     hint_supportRequestId := hint_supportRequestId h;
     hint_stepId := hint_stepId h;
     hint_puzzleId := hint_puzzleId h;
     hint_message := hint_message h;
     hint_sentById := hint_sentById h;
     hint_sentByRole := hint_sentByRole h;
     hint_status := st;
     hint_createdAt := hint_createdAt h;
     hint_viewedAt := at_ |}.

(** Rewrites the row with the given id, the first one as [findUnique]
    reads it; [None] when there is no such row. *)
Fixpoint update_row (id : string) (f : Hint → Hint) (l : list Hint) : option (Hint * list Hint) :=
  match l with
  | [] => None
  | h :: l' =>
      if String.eqb (hint_id h) id then Some (f h, f h :: l')
      else '(h', l'') ← update_row id f l'; Some (h', h :: l'')
  end.

(** Modelled from the spec: the store operation
    [updateHintStatus(id, status, viewedAt) -> Hint], called as
    [prisma.hint.update({ where: { id }, data: { status, viewedAt } })]. *)
Definition prisma_hint_update (id : string) (st : HintStatus) (at_ : option Z) : M Hint := λ w,
  match update_row id (with_viewed st at_) (hints w) with
  | Some (h', l') => (Ok h', set_hints l' w)
  | None => (Throw "Record to update not found.", w)
  end.

(** Modelled from the spec: the store operation [findProgressLogs(userId)],
    called as [prisma.progressLog.findMany({ where: { userId },
    orderBy: [{ updatedAt: 'desc' }] })]. *)
Definition prisma_progressLog_findMany (userId : string) : M (list ProgressLog) := λ w,
  (Ok (orderByDesc pl_updatedAt
         (filter (λ l, pl_userId l = userId) (progressLogs w))), w).

(** Modelled from the spec: the append to the audit store, which may fail,
    called as [prisma.auditLog.create({ data })] on the audit logger's client. *)
Definition prisma_auditLog_create (row : AuditLog) : M unit := λ w,
  match auditStoreError w with
  | Some e => (Throw e, w)
  | None => (Ok tt, set_auditLogs (auditLogs w ++ [row]) w)
  end.

(** ** services/auditLogger.ts *)

Definition logAuditEvent (params : AuditLogParams) : M unit :=
  try_catch
    (timestamp ← new_Date;
     prisma_auditLog_create
       {| al_actorId := p_actorId params;
          al_actorRole := p_actorRole params;
          al_action := p_action params;
          al_targetUserId := p_targetUserId params;
          al_metadata := p_metadata params;
          al_timestamp := timestamp |})
    (λ error, console_error "Audit log error:" (Some error)).

(** ** services/notificationService.ts *)

(** [io.to(socketId).emit('notification', payload)]. *)
Definition emit_notification (payload : NotificationPayload) (socketId : string) : M unit :=
  modify (λ w, set_emitted (emitted w ++ [(socketId, payload)]) w).

(** [sockets.forEach(f)]. *)
Fixpoint forEach {A} (l : list A) (f : A → M unit) : M unit :=
  match l with
  | [] => mret tt
  | x :: l' => f x ;; forEach l' f
  end.

Definition sendNotificationToUser (userId : string) (payload : NotificationPayload) : M unit :=
  w ← get_world;
  if negb (io w) then
    console_error "Socket.io not initialized. Cannot send notification." None
  else
    match userSocketMap w !! userId with
    | None | Some [] =>
        console_warn ("User " ++ userId ++ " not connected. Notification not delivered in real-time.")
    | Some sockets => forEach sockets (emit_notification payload)
    end.

(** [initializeSocket]: creates the server once. *)
Definition initializeSocket : M unit :=
  w ← get_world;
  if io w then mret tt
  else modify (set_io true) ;;
       console_write ConsoleLog "Socket.io notification service initialized." None.

(** [Set.prototype.add]. *)
Definition set_add (x : string) (s : list string) : list string :=
  if bool_decide (x ∈ s) then s else s ++ [x].

(** The handler of a socket's ['register'] event. *)
Definition on_register (socketId userId : string) : M unit :=
  if String.eqb userId "" then mret tt
  else modify (λ w,
    let m := userSocketMap w in
    let m' := match m !! userId with None => <[userId := []]> m | Some _ => m end in
    set_userSocketMap (alter (set_add socketId) userId m') w).

(** The handler of a socket's ['disconnect'] event. *)
Definition on_disconnect (socketId : string) : M unit :=
  modify (λ w,
    set_userSocketMap
      (omap (λ sockets,
         if bool_decide (socketId ∈ sockets) then
           let sockets' := filter (λ s, s ≠ socketId) sockets in
           match sockets' with [] => None | _ => Some sockets' end
         else Some sockets) (userSocketMap w)) w).

(** ** Requests and replies *)

(** What the [Authorization] header amounts to: absent or not a bearer
    header, a token that [jwt.verify] rejects, or a token that decodes to
    the claims [{ sub, role }]. *)
Inductive Bearer := NoBearer | BadToken (e : Error) | GoodToken (claims : Actor).

Record Request := {
  bearer : Bearer;
  user : option Actor;
  params_userId : option string;
  params_hintId : option string;
  query_userId : option string;
  body_userId : option string;
  body_stepId : option string;
  body_puzzleId : option string;
  body_message : option string
}.

Definition set_user (a : option Actor) (req : Request) : Request :=
  {| bearer := bearer req; user := a;
     params_userId := params_userId req; params_hintId := params_hintId req;
     query_userId := query_userId req; body_userId := body_userId req;
     body_stepId := body_stepId req; body_puzzleId := body_puzzleId req;
     body_message := body_message req |}.

(** The [hint] object of the reply of [sendHintOrFeedback]. *)
Record SentHint := {
  sh_id : string;
  sh_stepId : string;
  sh_puzzleId : option string;
  sh_message : string;
  sh_sentAt : Z;
  sh_status : HintStatus
}.

(** The fields that [getUserHints] selects. *)
Record HintView := {
  hv_id : string;
  hv_stepId : string;
  hv_puzzleId : option string;
  hv_message : string;
  hv_status : HintStatus;
  hv_createdAt : Z;
  hv_viewedAt : option Z;
  hv_sentById : option string;
  hv_sentByRole : option string
}.

Definition select_hint (h : Hint) : HintView :=
  {| hv_id := hint_id h; hv_stepId := hint_stepId h; hv_puzzleId := hint_puzzleId h;
     hv_message := hint_message h; hv_status := hint_status h;
     hv_createdAt := hint_createdAt h; hv_viewedAt := hint_viewedAt h;
     hv_sentById := hint_sentById h; hv_sentByRole := hint_sentByRole h |}.

(** The [hint] object of the reply of [markHintAsViewed]. *)
Record ViewedHint := {
  vh_id : string;
  vh_status : HintStatus;
  vh_viewedAt : option Z
}.

(** The fields that [getUserProgress] selects. *)
Record ProgressView := {
  pv_id : string;
  pv_stepId : string;
  pv_puzzleId : option string;
  pv_status : string;
  pv_updatedAt : Z;
  pv_details : string
}.

Definition select_progress (l : ProgressLog) : ProgressView :=
  {| pv_id := pl_id l; pv_stepId := pl_stepId l; pv_puzzleId := pl_puzzleId l;
     pv_status := pl_status l; pv_updatedAt := pl_updatedAt l;
     pv_details := pl_details l |}.

Record StuckView := {
  sv_stepId : string;
  sv_puzzleId : option string;
  sv_status : string;
  sv_updatedAt : Z;
  sv_details : string
}.

Definition stuck_of (l : ProgressView) : StuckView :=
  {| sv_stepId := pv_stepId l; sv_puzzleId := pv_puzzleId l; sv_status := pv_status l;
     sv_updatedAt := pv_updatedAt l; sv_details := pv_details l |}.

Inductive Body :=
  | ErrorBody (error : string)
  | SentBody (message : string) (hint : SentHint)
  | HintsBody (hints : list HintView)
  | ViewedBody (message : string) (hint : ViewedHint)
  | ProgressBody (user : User) (supportRequestId : string) (supportRequestCreatedAt : Z)
      (progressLogs : list ProgressView) (stuckStepOrPuzzle : option StuckView).

(** How a handler ends: [res.status(s).json(body)], [next()] with the
    request as the handler leaves it, or [next(error)]. *)
Inductive Reply :=
  | Send (status : nat) (body : Body)
  | Next (req : Request)
  | NextError (e : Error).

Definition Handler := Request → M Reply.

(** ** middleware/authMiddleware.ts *)

Definition authenticateJWT : Handler := λ req,
  match bearer req with
  | NoBearer => mret (Send 401 (ErrorBody "Authentication token missing or invalid."))
  | BadToken err =>
      console_error "JWT authentication error:" (Some err) ;;
      mret (Send 401 (ErrorBody "Invalid or expired authentication token."))
  | GoodToken decoded => mret (Next (set_user (Some decoded) req))
  end.

(** [req.user?.role === r]. *)
Definition role_is (req : Request) (r : UserRole) : bool :=
  match user req with
  | Some a => bool_decide (actor_role a = r)
  | None => false
  end.

(** [req.user?.id === id]. *)
Definition id_is (req : Request) (id : option string) : bool :=
  match user req, id with
  | Some a, Some i => String.eqb (actor_id a) i
  | None, None => true
  | _, _ => false
  end.

Definition authorizeSupportSpecialist : Handler := λ req,
  if role_is req SUPPORT_SPECIALIST || role_is req ADMIN then mret (Next req)
  else mret (Send 403 (ErrorBody "Access denied. Support Specialist role required.")).

(** [req.params.userId || req.body.userId]. *)
Definition userIdParam (req : Request) : option string :=
  js_or (params_userId req) (body_userId req).

Definition authorizeUserOrSupportSpecialist : Handler := λ req,
  if role_is req SUPPORT_SPECIALIST || role_is req ADMIN then mret (Next req)
  else if truthy (userIdParam req) && id_is req (userIdParam req) then mret (Next req)
  else if negb (truthy (userIdParam req)) && role_is req USER then mret (Next req)
  else mret (Send 403 (ErrorBody "Access denied.")).

(** ** controllers/hintController.ts *)

(** [req.user?.role === 'literal']. *)
Definition role_literal_is (req : Request) (literal : string) : bool :=
  match user req with
  | Some a => String.eqb (role_value (actor_role a)) literal
  | None => false
  end.

(** The call that Prisma rejects when a [where] clause is given an
    undefined unique key; Express binds the route parameter on every route
    of these controllers. *)
Definition prisma_validation_error : Error := "Argument `where` needs at least one argument.".

Definition actor_params (req : Request) (action : AuditAction)
    (target : option string) (meta : list (string * MetaValue)) : AuditLogParams :=
  {| p_actorId := js_or_default (actor_id <$> user req) "unknown";
     p_actorRole := js_or_default (role_value ∘ actor_role <$> user req) "unknown";
     p_action := action;
     p_targetUserId := target;
     p_metadata := Some meta |}.

Definition meta_opt (s : option string) : MetaValue :=
  match s with Some s => MString s | None => MUndefined end.

Definition meta_date (t : option Z) : MetaValue :=
  match t with Some t => MDate t | None => MUndefined end.

Definition sendHintOrFeedback : Handler := λ req,
  try_catch
    (if negb (truthy (body_stepId req)) || negb (truthy (body_message req)) then
       mret (Send 400 (ErrorBody "stepId and message are required."))
     else
       (* past the validation [stepId] and [message] are strings *)
       match params_userId req, body_stepId req, body_message req with
       | Some userId, Some stepId, Some message =>
           user' ← prisma_user_findUnique userId;
           match user' with
           | None => mret (Send 404 (ErrorBody "User not found."))
           | Some _ =>
               supportRequest ← prisma_supportRequest_findFirst_open userId;
               match supportRequest with
               | None =>
                   mret (Send 403 (ErrorBody "Cannot send hint: user has not requested support."))
               | Some supportRequest =>
                   hint ← prisma_hint_create
                     {| d_userId := userId;
                        d_supportRequestId := sr_id supportRequest;
                        d_stepId := stepId;
                        d_puzzleId := body_puzzleId req;
                        d_message := message;
                        d_sentById := js_or_null (actor_id <$> user req);
                        d_sentByRole := js_or_null (role_value ∘ actor_role <$> user req);
                        d_status := UNREAD |};
                   logAuditEvent
                     (actor_params req SEND_HINT (Some userId)
                        [("hintId", MString (hint_id hint));
                         ("supportRequestId", MString (sr_id supportRequest));
                         ("stepId", MString stepId);
                         ("puzzleId", meta_opt (body_puzzleId req))]) ;;
                   sendNotificationToUser userId
                     {| n_type := HINT;
                        n_hintId := Some (hint_id hint);
                        n_message := message;
                        n_stepId := Some stepId;
                        n_puzzleId := body_puzzleId req;
                        n_sentAt := Some (hint_createdAt hint) |} ;;
                   mret (Send 201 (SentBody "Hint/feedback sent successfully."
                     {| sh_id := hint_id hint;
                        sh_stepId := hint_stepId hint;
                        sh_puzzleId := hint_puzzleId hint;
                        sh_message := hint_message hint;
                        sh_sentAt := hint_createdAt hint;
                        sh_status := hint_status hint |}))
               end
           end
       | _, _, _ => throw prisma_validation_error
       end)
    (λ error,
       console_error "Error sending hint/feedback:" (Some error) ;;
       mret (NextError error)).

Definition getUserHints : Handler := λ req,
  try_catch
    (let userId :=
       if role_literal_is req "support_specialist" || role_literal_is req "admin"
       then query_userId req
       else actor_id <$> user req in
     match userId with
     | Some userId =>
         if String.eqb userId "" then mret (Send 400 (ErrorBody "User ID is required."))
         else
           hints ← prisma_hint_findMany userId;
           logAuditEvent (actor_params req VIEW_HINT_LIST (Some userId) []) ;;
           mret (Send 200 (HintsBody (select_hint <$> hints)))
     | None => mret (Send 400 (ErrorBody "User ID is required."))
     end)
    (λ error,
       console_error "Error fetching user hints:" (Some error) ;;
       mret (NextError error)).

Definition markHintAsViewed : Handler := λ req,
  try_catch
    (match params_hintId req with
     | Some hintId =>
         hint ← prisma_hint_findUnique hintId;
         match hint with
         | None => mret (Send 404 (ErrorBody "Hint not found."))
         | Some hint =>
             if negb (id_is req (Some (hint_userId hint))) && negb (role_literal_is req "admin") then
               mret (Send 403 (ErrorBody "Access denied."))
             else
               viewedAt ← new_Date;
               updatedHint ← prisma_hint_update hintId VIEWED (Some viewedAt);
               logAuditEvent
                 (actor_params req VIEW_HINT (Some (hint_userId hint))
                    [("hintId", MString (hint_id hint));
                     ("viewedAt", meta_date (hint_viewedAt updatedHint))]) ;;
               mret (Send 200 (ViewedBody "Hint marked as viewed."
                 {| vh_id := hint_id updatedHint;
                    vh_status := hint_status updatedHint;
                    vh_viewedAt := hint_viewedAt updatedHint |}))
         end
     | None => throw prisma_validation_error
     end)
    (λ error,
       console_error "Error marking hint as viewed:" (Some error) ;;
       mret (NextError error)).

(** ** controllers/progressController.ts *)

Definition getUserProgress : Handler := λ req,
  try_catch
    (match params_userId req with
     | Some userId =>
         user' ← prisma_user_findUnique userId;
         match user' with
         | None => mret (Send 404 (ErrorBody "User not found."))
         | Some user' =>
             supportRequest ← prisma_supportRequest_findFirst_open userId;
             match supportRequest with
             | None => mret (Send 403 (ErrorBody "No active support request for this user."))
             | Some supportRequest =>
                 logs ← prisma_progressLog_findMany userId;
                 let progressLogs := select_progress <$> logs in
                 let stuckLog := find (λ log, String.eqb (pv_status log) "STUCK") progressLogs in
                 viewedAt ← new_Date;
                 logAuditEvent
                   (actor_params req VIEW_USER_PROGRESS (Some userId)
                      [("supportRequestId", MString (sr_id supportRequest));
                       ("viewedAt", MDate viewedAt)]) ;;
                 mret (Send 200 (ProgressBody user' (sr_id supportRequest)
                   (sr_createdAt supportRequest) progressLogs (stuck_of <$> stuckLog)))
             end
         end
     | None => throw prisma_validation_error
     end)
    (λ error,
       console_error "Error fetching user progress:" (Some error) ;;
       mret (NextError error)).

(** ** The router

    Express runs the handlers of a route in order; a handler that replies
    or calls [next(error)] ends the chain. *)
Fixpoint run_chain (hs : list Handler) (req : Request) : M Reply :=
  match hs with
  | [] => mret (Next req)
  | h :: rest =>
      r ← h req;
      match r with
      | Next req' => run_chain rest req'
      | _ => mret r
      end
  end.

(** [GET /progress/:userId]. *)
Definition route_get_progress : Handler :=
  run_chain [authenticateJWT; authorizeSupportSpecialist; getUserProgress].

(** [POST /hint/:userId]. *)
Definition route_post_hint : Handler :=
  run_chain [authenticateJWT; authorizeSupportSpecialist; sendHintOrFeedback].

(** [GET /hint]. *)
Definition route_get_hint : Handler :=
  run_chain [authenticateJWT; authorizeUserOrSupportSpecialist; getUserHints].

(** [POST /hint/view/:hintId]. *)
Definition route_post_hint_view : Handler :=
  run_chain [authenticateJWT; authorizeUserOrSupportSpecialist; markHintAsViewed].

(** ** The vocabulary of the specification *)

(** The error kinds of the specification are the HTTP statuses of the
    replies. *)
Inductive ErrorKind := ValidationError | NotFoundError | ForbiddenError | UnauthenticatedError.

Definition status_of (k : ErrorKind) : nat :=
  match k with
  | ValidationError => 400
  | NotFoundError => 404
  | ForbiddenError => 403
  | UnauthenticatedError => 401
  end.

(** A run fails with kind [k] when the handler returns the reply of that
    status with an error body. *)
Definition fails_with (r : Outcome Reply) (k : ErrorKind) : Prop :=
  ∃ msg, r = Ok (Send (status_of k) (ErrorBody msg)).

(** A run succeeds when the handler returns a 200 or a 201. *)
Definition succeeded (r : Outcome Reply) : bool :=
  match r with
  | Ok (Send s _) => bool_decide (s = 200 ∨ s = 201)
  | _ => false
  end.

Definition user_exists (w : World) (id : string) : Prop :=
  ∃ u, u ∈ users w ∧ user_id u = id.

Definition has_open_request (w : World) (userId : string) : Prop :=
  ∃ r, r ∈ supportRequests w ∧ sr_userId r = userId ∧ sr_status r = OPEN.

Definition hint_exists (w : World) (id : string) : Prop :=
  ∃ h, h ∈ hints w ∧ hint_id h = id.

(** The row that [findUnique] reads for a hint id. *)
Definition lookup_hint (w : World) (id : string) : option Hint :=
  find (λ h, String.eqb (hint_id h) id) (hints w).

(** The world after [logAuditEvent]: one more audit row, or one more
    console line when the audit store rejects the write. *)
Definition audit_world (params : AuditLogParams) (w : World) : World :=
  match auditStoreError w with
  | None =>
      set_auditLogs (auditLogs w ++
        [{| al_actorId := p_actorId params;
            al_actorRole := p_actorRole params;
            al_action := p_action params;
            al_targetUserId := p_targetUserId params;
            al_metadata := p_metadata params;
            al_timestamp := clock w |}]) w
  | Some e =>
      set_console (console w ++
        [{| ce_level := ConsoleError; ce_text := "Audit log error:"; ce_error := Some e |}]) w
  end.

(** The console line of a dispatch that reaches nobody. *)
Definition undelivered_entry (w : World) (userId : string) : ConsoleEntry :=
  if io w then
    {| ce_level := ConsoleWarn;
       ce_text := "User " ++ userId ++ " not connected. Notification not delivered in real-time.";
       ce_error := None |}
  else
    {| ce_level := ConsoleError;
       ce_text := "Socket.io not initialized. Cannot send notification.";
       ce_error := None |}.

(** The live connections that a dispatch to [userId] reaches. *)
Definition live_connections (w : World) (userId : string) : list string :=
  if io w then default [] (userSocketMap w !! userId) else [].

(** The world after [sendNotificationToUser]. *)
Definition dispatch_world (userId : string) (payload : NotificationPayload) (w : World) : World :=
  match live_connections w userId with
  | [] => set_console (console w ++ [undelivered_entry w userId]) w
  | sockets => set_emitted (emitted w ++ ((λ s, (s, payload)) <$> sockets)) w
  end.

(** The row that [sendHintOrFeedback] creates for an accepted request. *)
Definition created_hint (req : Request) (w : World) (userId : string)
    (supportRequest : SupportRequest) (stepId message : string) : Hint :=
  {| hint_id := idGen w (idSeq w);
     hint_userId := userId;
     hint_supportRequestId := sr_id supportRequest;
     hint_stepId := stepId;
     hint_puzzleId := body_puzzleId req;
     hint_message := message;
     hint_sentById := js_or_null (actor_id <$> user req);
     hint_sentByRole := js_or_null (role_value ∘ actor_role <$> user req);
     hint_status := UNREAD;
     hint_createdAt := clock w;
     hint_viewedAt := None |}.

(** The audit parameters and the notification of [sendHintOrFeedback]. *)
Definition send_hint_audit (req : Request) (userId : string)
    (supportRequest : SupportRequest) (stepId : string) (hint : Hint) : AuditLogParams :=
  actor_params req SEND_HINT (Some userId)
    [("hintId", MString (hint_id hint));
     ("supportRequestId", MString (sr_id supportRequest));
     ("stepId", MString stepId);
     ("puzzleId", meta_opt (body_puzzleId req))].

Definition hint_notification (req : Request) (stepId message : string) (hint : Hint)
    : NotificationPayload :=
  {| n_type := HINT;
     n_hintId := Some (hint_id hint);
     n_message := message;
     n_stepId := Some stepId;
     n_puzzleId := body_puzzleId req;
     n_sentAt := Some (hint_createdAt hint) |}.

Definition sent_reply (hint : Hint) : Reply :=
  Send 201 (SentBody "Hint/feedback sent successfully."
    {| sh_id := hint_id hint;
       sh_stepId := hint_stepId hint;
       sh_puzzleId := hint_puzzleId hint;
       sh_message := hint_message hint;
       sh_sentAt := hint_createdAt hint;
       sh_status := hint_status hint |}).

(** The world after a handler's [catch] block. *)
Definition caught_world (text : string) (e : Error) (w : World) : World :=
  set_console (console w ++
    [{| ce_level := ConsoleError; ce_text := text; ce_error := Some e |}]) w.


(** The user whose hints [getUserHints] lists: the [let userId] of the
    controller. *)
Definition hints_target (req : Request) : option string :=
  if role_literal_is req "support_specialist" || role_literal_is req "admin"
  then query_userId req
  else actor_id <$> user req.

(** The rows that [findMany] returns for a user, newest first. *)
Definition hints_of (w : World) (userId : string) : list Hint :=
  orderByDesc hint_createdAt (filter (λ h, hint_userId h = userId) (hints w)).

(** The actor of the request is the subject of the hint or an admin. *)
Definition actor_is_subject_or_admin (req : Request) (h : Hint) : Prop :=
  ∃ a, user req = Some a ∧ (actor_id a = hint_userId h ∨ actor_role a = ADMIN).

(** The hint table after [markHintAsViewed] updates the hint [id] at time [t]. *)
Definition viewed_rows (id : string) (t : Z) (l : list Hint) : list Hint :=
  match update_row id (with_viewed VIEWED (Some t)) l with
  | Some (_, l') => l'
  | None => l
  end.

Definition view_hint_audit (req : Request) (h : Hint) (t : Z) : AuditLogParams :=
  actor_params req VIEW_HINT (Some (hint_userId h))
    [("hintId", MString (hint_id h)); ("viewedAt", MDate t)].

Definition viewed_reply (h : Hint) (t : Z) : Reply :=
  Send 200 (ViewedBody "Hint marked as viewed."
    {| vh_id := hint_id h; vh_status := VIEWED; vh_viewedAt := Some t |}).

(** The rows that [findMany] returns for a user's progress, as selected. *)
Definition progress_of (w : World) (userId : string) : list ProgressView :=
  select_progress <$>
    orderByDesc pl_updatedAt (filter (λ l, pl_userId l = userId) (progressLogs w)).

Definition progress_reply (u : User) (r : SupportRequest) (logs : list ProgressView) : Reply :=
  Send 200 (ProgressBody u (sr_id r) (sr_createdAt r) logs
    (stuck_of <$> find (λ log, String.eqb (pv_status log) "STUCK") logs)).

Definition view_progress_audit (req : Request) (userId : string) (r : SupportRequest) (t : Z)
    : AuditLogParams :=
  actor_params req VIEW_USER_PROGRESS (Some userId)
    [("supportRequestId", MString (sr_id r)); ("viewedAt", MDate t)].

(** A body field is empty when it is absent or the empty string. *)
Definition is_empty (s : option string) : Prop := s = None ∨ s = Some "".

(** The three rejections of CreateHint, in the order the specification
    gives them. *)
Inductive CreateHintRejection (req : Request) (w : World) : ErrorKind → Prop :=
  | reject_empty_field :
      is_empty (body_stepId req) ∨ is_empty (body_message req) →
      CreateHintRejection req w ValidationError
  | reject_unknown_user userId :
      ¬ is_empty (body_stepId req) → ¬ is_empty (body_message req) →
      params_userId req = Some userId →
      ¬ user_exists w userId →
      CreateHintRejection req w NotFoundError
  | reject_no_open_request userId :
      ¬ is_empty (body_stepId req) → ¬ is_empty (body_message req) →
      params_userId req = Some userId →
      user_exists w userId →
      ¬ has_open_request w userId →
      CreateHintRejection req w ForbiddenError.

(** The OPEN support request that [findFirst] finds for a user. *)
Definition open_request_of (w : World) (userId : string) : option SupportRequest :=
  find (λ r, String.eqb (sr_userId r) userId && isOpen r) (supportRequests w).

(** Newest first. *)
Definition newer_or_same (a b : Hint) : Prop := (hint_createdAt b ≤ hint_createdAt a)%Z.

(** The request carries the user id [uid]: as the route parameter, or in
    the body when there is no route parameter. This is the reading of
    [req.params.userId || req.body.userId]; an empty string is no id. *)
Inductive carries_userId (req : Request) (uid : string) : Prop :=
  | carried_in_route :
      params_userId req = Some uid → uid ≠ "" → carries_userId req uid
  | carried_in_body :
      is_empty (params_userId req) → body_userId req = Some uid → uid ≠ "" →
      carries_userId req uid.

(** The decision of an authorization middleware. *)
Inductive Verdict := Allow | Deny.

Definition verdict (r : Outcome Reply) : option Verdict :=
  match r with
  | Ok (Next _) => Some Allow
  | Ok (Send s _) => if decide (s = 403) then Some Deny else None
  | _ => None
  end.

(** Some target user id comes with the request, wherever it is put. *)
Definition explicit_target (req : Request) : bool :=
  truthy (params_userId req) || truthy (body_userId req) || truthy (query_userId req).

(** The list-own-hints policy in the words of the specification: allow iff
    the role is SUPPORT_SPECIALIST or ADMIN, or the role is USER and no
    explicit target was requested. *)
Definition claimed_list_own_hints (req : Request) : Verdict :=
  match user req with
  | Some a =>
      match actor_role a with
      | SUPPORT_SPECIALIST | ADMIN => Allow
      | USER => if explicit_target req then Deny else Allow
      end
  | None => Deny
  end.

(** One audit event with the given action tag was appended. *)
Definition appends_one_event (action : AuditAction) (w w' : World) : Prop :=
  ∃ ev, auditLogs w' = (auditLogs w ++ [ev])%list ∧ al_action ev = action.

(** The audit behaviour of a controller: a successful run appends one
    event with the controller's tag when the audit store takes the write
    and none when it rejects it; any other run appends none. *)
Definition audits_on_success (h : Handler) (action : AuditAction) : Prop :=
  ∀ req w,
    if succeeded (h req w).1 then
      match auditStoreError w with
      | None => appends_one_event action w (h req w).2
      | Some _ => auditLogs (h req w).2 = auditLogs w
      end
    else auditLogs (h req w).2 = auditLogs w.

(** A console line that reports a problem; Node writes [console.warn] and
    [console.error] to the same stream. *)
Definition is_warning (e : ConsoleEntry) : Prop :=
  ce_level e = ConsoleWarn ∨ ce_level e = ConsoleError.

(** The user has no live connection the dispatcher can reach. *)
Definition no_live_connection (w : World) (userId : string) : Prop :=
  io w = false ∨ userSocketMap w !! userId = None ∨ userSocketMap w !! userId = Some [].

(** What a controller replies, what it leaves in the hint table and what it
    emits do not depend on the state of the audit store. *)
Definition ignores_audit_store (h : Handler) : Prop :=
  ∀ req w e,
    (h req (set_auditStoreError e w)).1 = (h req w).1
    ∧ hints (h req (set_auditStoreError e w)).2 = hints (h req w).2
    ∧ emitted (h req (set_auditStoreError e w)).2 = emitted (h req w).2.

(** The outcome of a controller is the same whether the audit store
    rejects the write, with any error, or takes it. *)
Definition audit_independent (h : Handler) : Prop :=
  ∀ req w failure,
    (h req (set_auditStoreError (Some failure) w)).1
      = (h req (set_auditStoreError None w)).1
    ∧ hints (h req (set_auditStoreError (Some failure) w)).2
      = hints (h req (set_auditStoreError None w)).2
    ∧ emitted (h req (set_auditStoreError (Some failure) w)).2
      = emitted (h req (set_auditStoreError None w)).2.

(** ** Sample data

    The scenario of the specification: user u1 has the OPEN support request
    r1, user u2 has only a CLOSED one, s1 is a support specialist. *)

Definition sample_ids (n : nat) : string := "hint-" +:+ pretty n.

Definition sample_world : World :=
  {| users := [ {| user_id := "u1"; username := "ada" |};
                {| user_id := "u2"; username := "bob" |} ];
     supportRequests :=
       [ {| sr_id := "r0"; sr_userId := "u2"; sr_status := CLOSED; sr_createdAt := 100 |};
         {| sr_id := "r1"; sr_userId := "u1"; sr_status := OPEN; sr_createdAt := 200 |} ];
     hints := [];
     progressLogs := [];
     auditLogs := [];
     auditStoreError := None;
     clock := 1000;
     idGen := sample_ids;
     idSeq := 1;
     io := true;
     userSocketMap := {[ "u1" := ["socket-a"] ]};
     emitted := [];
     console := [] |}.

Definition sample_specialist : Actor := {| actor_id := "s1"; actor_role := SUPPORT_SPECIALIST |}.
Definition sample_user1 : Actor := {| actor_id := "u1"; actor_role := USER |}.
Definition sample_user2 : Actor := {| actor_id := "u2"; actor_role := USER |}.

(** A request of an authenticated actor with nothing else set. *)
Definition request_of (a : Actor) : Request :=
  {| bearer := GoodToken a; user := Some a;
     params_userId := None; params_hintId := None; query_userId := None;
     body_userId := None; body_stepId := None; body_puzzleId := None;
     body_message := None |}.

Definition with_params_userId (id : option string) (req : Request) : Request :=
  {| bearer := bearer req; user := user req;
     params_userId := id; params_hintId := params_hintId req;
     query_userId := query_userId req; body_userId := body_userId req;
     body_stepId := body_stepId req; body_puzzleId := body_puzzleId req;
     body_message := body_message req |}.

Definition with_params_hintId (id : option string) (req : Request) : Request :=
  {| bearer := bearer req; user := user req;
     params_userId := params_userId req; params_hintId := id;
     query_userId := query_userId req; body_userId := body_userId req;
     body_stepId := body_stepId req; body_puzzleId := body_puzzleId req;
     body_message := body_message req |}.

Definition with_query_userId (id : option string) (req : Request) : Request :=
  {| bearer := bearer req; user := user req;
     params_userId := params_userId req; params_hintId := params_hintId req;
     query_userId := id; body_userId := body_userId req;
     body_stepId := body_stepId req; body_puzzleId := body_puzzleId req;
     body_message := body_message req |}.

Definition with_body_userId (id : option string) (req : Request) : Request :=
  {| bearer := bearer req; user := user req;
     params_userId := params_userId req; params_hintId := params_hintId req;
     query_userId := query_userId req; body_userId := id;
     body_stepId := body_stepId req; body_puzzleId := body_puzzleId req;
     body_message := body_message req |}.

Definition with_hint_body (stepId message : option string) (req : Request) : Request :=
  {| bearer := bearer req; user := user req;
     params_userId := params_userId req; params_hintId := params_hintId req;
     query_userId := query_userId req; body_userId := body_userId req;
     body_stepId := stepId; body_puzzleId := body_puzzleId req;
     body_message := message |}.

(** CreateHint(s1, target, step-3, "try the left lever"). *)
Definition sample_create_hint (target : string) : Request :=
  with_hint_body (Some "step-3") (Some "try the left lever")
    (with_params_userId (Some target) (request_of sample_specialist)).

(** The world after s1 has sent u1 the hint, at time 2000. *)
Definition sample_world_with_hint : World :=
  set_clock 2000 (sendHintOrFeedback (sample_create_hint "u1") sample_world).2.

(** MarkViewed(actor, hint-1). *)
Definition sample_mark_viewed (a : Actor) : Request :=
  with_params_hintId (Some "hint-1") (request_of a).

(** The world after u1 has marked the hint viewed, at time 3000. *)
Definition sample_world_viewed : World :=
  set_clock 3000 (markHintAsViewed (sample_mark_viewed sample_user1) sample_world_with_hint).2.

Definition sample_hint (id userId : string) (createdAt : Z) : Hint :=
  {| hint_id := id; hint_userId := userId; hint_supportRequestId := "r1";
     hint_stepId := "step-3"; hint_puzzleId := None; hint_message := "try the left lever";
     hint_sentById := Some "s1"; hint_sentByRole := Some "support_specialist";
     hint_status := UNREAD; hint_createdAt := createdAt; hint_viewedAt := None |}.

(** A world with hints of two users, not in order of creation. *)
Definition sample_world_many : World :=
  set_hints [sample_hint "h1" "u1" 10; sample_hint "h2" "u2" 20;
             sample_hint "h3" "u1" 30; sample_hint "h4" "u1" 20] sample_world.

(** ListHints(u1) with the id of u2 in the query string. *)
Definition sample_list_hints : Request :=
  with_query_userId (Some "u2") (request_of sample_user1).

(** A request of u1 that names u1 in the body and in the query string. *)
Definition sample_list_own : Request :=
  with_query_userId (Some "u1") (with_body_userId (Some "u1") (request_of sample_user1)).

(** A request of u1 that names u2 in the body. *)
Definition sample_list_foreign : Request :=
  with_body_userId (Some "u2") (request_of sample_user1).

(** ViewProgress(s1, target). *)
Definition sample_view_progress (target : string) : Request :=
  with_params_userId (Some target) (request_of sample_specialist).

(** ** Further vocabulary and sample data *)

(** The second world is the first one with, at most, more on the console. *)
Definition only_console_differs (w w' : World) : Prop :=
  w' = set_console (console w') w.

Definition with_bearer (b : Bearer) (req : Request) : Request :=
  {| bearer := b; user := user req;
     params_userId := params_userId req; params_hintId := params_hintId req;
     query_userId := query_userId req; body_userId := body_userId req;
     body_stepId := body_stepId req; body_puzzleId := body_puzzleId req;
     body_message := body_message req |}.

Definition sample_admin : Actor := {| actor_id := "a1"; actor_role := ADMIN |}.

(** The request to send u1 a hint, as it arrives: without [req.user], and
    with the given [Authorization] header. *)
Definition sample_incoming_hint (b : Bearer) : Request :=
  set_user None (with_bearer b (sample_create_hint "u1")).

(** The socket ids the directory holds for a user. *)
Definition connections_of (w : World) (userId : string) : list string :=
  default [] (userSocketMap w !! userId).

(** What the ['disconnect'] handler leaves of a user's set of sockets:
    nothing when the socket was the last one. *)
Definition drop_socket (socketId : string) (sockets : list string) : option (list string) :=
  if bool_decide (socketId ∈ sockets) then
    let sockets' := filter (λ s, s ≠ socketId) sockets in
    match sockets' with [] => None | _ => Some sockets' end
  else Some sockets.

(** The shape the handlers keep the directory in: no user with an empty id,
    and for every user listed at least one socket id and none twice. *)
Definition directory_ok (m : gmap string (list string)) : Prop :=
  m !! "" = None
  ∧ ∀ userId sockets, m !! userId = Some sockets → sockets ≠ [] ∧ NoDup sockets.

(** The socket id is in nobody's set. *)
Definition socket_unknown (m : gmap string (list string)) (socketId : string) : Prop :=
  ∀ userId sockets, m !! userId = Some sockets → socketId ∉ sockets.

Definition sample_payload : NotificationPayload :=
  {| n_type := GENERIC; n_hintId := None; n_message := "hello";
     n_stepId := None; n_puzzleId := None; n_sentAt := None |}.

(** What a controller may change in a hint row it keeps: the status, which
    stays VIEWED once it is, and viewedAt. *)
Definition hint_kept (h h' : Hint) : Prop :=
  hint_id h' = hint_id h
  ∧ hint_userId h' = hint_userId h
  ∧ hint_supportRequestId h' = hint_supportRequestId h
  ∧ hint_stepId h' = hint_stepId h
  ∧ hint_puzzleId h' = hint_puzzleId h
  ∧ hint_message h' = hint_message h
  ∧ hint_sentById h' = hint_sentById h
  ∧ hint_sentByRole h' = hint_sentByRole h
  ∧ hint_createdAt h' = hint_createdAt h
  ∧ (hint_status h = VIEWED → hint_status h' = VIEWED).

(** Every hint refers to a support request of the user it is for. *)
Definition hints_linked (w : World) : Prop :=
  ∀ h, h ∈ hints w →
    ∃ r, r ∈ supportRequests w
         ∧ sr_id r = hint_supportRequestId h ∧ sr_userId r = hint_userId h.

(** The four controllers. *)
Definition is_controller (h : Handler) : Prop :=
  h = sendHintOrFeedback ∨ h = getUserHints ∨ h = markHintAsViewed ∨ h = getUserProgress.

(** The tables and the sockets are as before; the audit log and the console
    are left out. *)
Definition store_unchanged (w w' : World) : Prop :=
  users w' = users w
  ∧ supportRequests w' = supportRequests w
  ∧ hints w' = hints w
  ∧ progressLogs w' = progressLogs w
  ∧ userSocketMap w' = userSocketMap w
  ∧ emitted w' = emitted w.

(** A hint that is new in the table: UNREAD, and for a user who has the
    OPEN support request it refers to. *)
Definition solicited (w : World) (h : Hint) : Prop :=
  hint_status h = UNREAD ∧ hint_viewedAt h = None
  ∧ ∃ r, r ∈ supportRequests w
         ∧ sr_id r = hint_supportRequestId h
         ∧ sr_userId r = hint_userId h
         ∧ sr_status r = OPEN.

(** The notification that tells of a hint. *)
Definition payload_of (h : Hint) : NotificationPayload :=
  {| n_type := HINT;
     n_hintId := Some (hint_id h);
     n_message := hint_message h;
     n_stepId := Some (hint_stepId h);
     n_puzzleId := hint_puzzleId h;
     n_sentAt := Some (hint_createdAt h) |}.

(** The metadata of the audit event that tells of a hint sent. *)
Definition sent_metadata (h : Hint) : list (string * MetaValue) :=
  [("hintId", MString (hint_id h));
   ("supportRequestId", MString (hint_supportRequestId h));
   ("stepId", MString (hint_stepId h));
   ("puzzleId", meta_opt (hint_puzzleId h))].

(** The request of [a] to mark the hint [hintId] viewed. *)
Definition mark_viewed_request (a : Actor) (hintId : string) : Request :=
  with_params_hintId (Some hintId) (request_of a).

(** Most recently updated first. *)
Definition updated_later_or_same (a b : ProgressView) : Prop :=
  (pv_updatedAt b ≤ pv_updatedAt a)%Z.

Definition sample_log (id userId stepId status : string) (updatedAt : Z) : ProgressLog :=
  {| pl_id := id; pl_userId := userId; pl_stepId := stepId; pl_puzzleId := None;
     pl_status := status; pl_updatedAt := updatedAt; pl_details := "" |}.

(** A world where u1 was stuck on step-2 and later on step-3. *)
Definition sample_world_progress : World :=
  {| users := users sample_world; supportRequests := supportRequests sample_world;
     hints := hints sample_world;
     progressLogs :=
       [ sample_log "p1" "u1" "step-1" "DONE" 10;
         sample_log "p2" "u1" "step-2" "STUCK" 20;
         sample_log "p3" "u2" "step-9" "STUCK" 50;
         sample_log "p4" "u1" "step-3" "STUCK" 40;
         sample_log "p5" "u1" "step-4" "IN_PROGRESS" 45 ];
     auditLogs := auditLogs sample_world; auditStoreError := None; clock := 1000;
     idGen := sample_ids; idSeq := 1; io := true;
     userSocketMap := userSocketMap sample_world; emitted := []; console := [] |}.

(** ListHints(s1) for a target named in the query string. *)
Definition sample_specialist_list (target : option string) : Request :=
  with_query_userId target (request_of sample_specialist).

(** ** frontend/src/components/UserNotifications.tsx *)

(** The update of the local list in [markAsViewed], run once the server has
    accepted the call:
    [prev.map((h) => h.id === hintId
       ? { ...h, status: 'VIEWED', viewedAt: new Date().toISOString() } : h)]. *)
Definition markAsViewed_update (hintId : string) (now : Z) (prev : list HintView)
    : list HintView :=
  (λ h, if String.eqb (hv_id h) hintId
        then {| hv_id := hv_id h; hv_stepId := hv_stepId h; hv_puzzleId := hv_puzzleId h;
                hv_message := hv_message h; hv_status := VIEWED;
                hv_createdAt := hv_createdAt h; hv_viewedAt := Some now;
                hv_sentById := hv_sentById h; hv_sentByRole := hv_sentByRole h |}
        else h) <$> prev.

(** The action cell of a row of the table: the button is there for an
    UNREAD hint only. *)
Definition offers_mark_as_viewed (h : HintView) : bool :=
  match hv_status h with UNREAD => true | VIEWED => false end.

(** The hint ids of the table are distinct, as a primary key is. *)
Definition unique_hint_ids (w : World) : Prop := NoDup (hint_id <$> hints w).

(** * Properties *)

(** ** Records and the monad *)

Lemma set_emitted_id w : set_emitted (emitted w) w = w.
Proof. by destruct w. Qed.

Lemma set_emitted_twice es es' w : set_emitted es (set_emitted es' w) = set_emitted es w.
Proof. done. Qed.

Lemma bind_ok {A B} (m : M A) (f : A → M B) w a w' :
  m w = (Ok a, w') → (m ≫= f) w = f a w'.
Proof. unfold mbind, M_bind. by intros ->. Qed.

Lemma bind_throw {A B} (m : M A) (f : A → M B) w e w' :
  m w = (Throw e, w') → (m ≫= f) w = (Throw e, w').
Proof. unfold mbind, M_bind. by intros ->. Qed.

Lemma try_catch_ok {A} (m : M A) h w a w' :
  m w = (Ok a, w') → try_catch m h w = (Ok a, w').
Proof. unfold try_catch. by intros ->. Qed.

Lemma try_catch_returns {A} (body : M A) (handler : Error → M A) :
  (∀ e w, ∃ a w', handler e w = (Ok a, w')) →
  ∀ w, ∃ a w', try_catch body handler w = (Ok a, w').
Proof.
  intros Hh w. unfold try_catch. destruct (body w) as [[a|e] w']; [by eauto|apply Hh].
Qed.

(** Every controller ends in a reply or in [next(error)]; no exception
    leaves it. *)
Lemma controllers_return (req : Request) (w : World) :
  (∃ r w', sendHintOrFeedback req w = (Ok r, w'))
  ∧ (∃ r w', getUserHints req w = (Ok r, w'))
  ∧ (∃ r w', markHintAsViewed req w = (Ok r, w'))
  ∧ (∃ r w', getUserProgress req w = (Ok r, w')).
Proof.
  repeat split; apply try_catch_returns; intros e w0; by eexists _, _.
Qed.

(** ** The audit logger and the dispatcher as world transformers *)

Lemma logAuditEvent_run params w :
  logAuditEvent params w = (Ok tt, audit_world params w).
Proof.
  unfold logAuditEvent, audit_world, try_catch, mbind, M_bind, new_Date,
    prisma_auditLog_create.
  by destruct (auditStoreError w).
Qed.

Lemma forEach_emit payload sockets w :
  forEach sockets (emit_notification payload) w
  = (Ok tt, set_emitted (emitted w ++ ((λ s, (s, payload)) <$> sockets)) w).
Proof.
  revert w. induction sockets as [|s sockets IH]; intros w; simpl.
  - by rewrite app_nil_r, set_emitted_id.
  - unfold mbind, M_bind, emit_notification at 1, modify. rewrite IH. simpl.
    by rewrite set_emitted_twice, <- app_assoc.
Qed.

Lemma sendNotificationToUser_run userId payload w :
  sendNotificationToUser userId payload w = (Ok tt, dispatch_world userId payload w).
Proof.
  unfold sendNotificationToUser, dispatch_world, live_connections, undelivered_entry,
    mbind, M_bind, get_world.
  destruct (io w); simpl; [|done].
  destruct (userSocketMap w !! userId) as [[|s sockets]|]; simpl; try done.
  apply (forEach_emit payload (s :: sockets)).
Qed.

(** ** Lookups in the tables *)

Lemma find_user_None w id :
  find (λ u, String.eqb (user_id u) id) (users w) = None ↔ ¬ user_exists w id.
Proof.
  unfold user_exists. induction (users w) as [|u us IH]; simpl.
  - split; [|done]. intros _ (u & Hu & _). by apply elem_of_nil in Hu.
  - destruct (String.eqb_spec (user_id u) id) as [Heq|Hne].
    + split; [done|]. intros []. exists u. split; [left|done].
    + rewrite IH. split.
      * intros Hno (u' & [->|Hin]%elem_of_cons & Hid); [done|]. apply Hno. by exists u'.
      * intros Hno (u' & Hin & Hid). apply Hno. exists u'. split; [by right|done].
Qed.

Lemma find_user_Some w id u :
  find (λ u, String.eqb (user_id u) id) (users w) = Some u → user_exists w id.
Proof.
  intros Hf. destruct (find_some _ _ Hf) as [Hin Heq].
  exists u. split; [by apply list_elem_of_In|by apply String.eqb_eq].
Qed.

Lemma find_open_None w userId :
  find (λ r, String.eqb (sr_userId r) userId && isOpen r) (supportRequests w) = None
  ↔ ¬ has_open_request w userId.
Proof.
  unfold has_open_request. induction (supportRequests w) as [|r rs IH]; simpl.
  - split; [|done]. intros _ (r & Hr & _). by apply elem_of_nil in Hr.
  - destruct (String.eqb_spec (sr_userId r) userId) as [Heq|Hne]; simpl.
    + unfold isOpen at 1. destruct (sr_status r) eqn:Hst.
      * split; [done|]. intros []. exists r. split; [left|done].
      * rewrite IH. split.
        -- intros Hno (r' & [->|Hin]%elem_of_cons & Hid & Hop); [congruence|].
           apply Hno. by exists r'.
        -- intros Hno (r' & Hin & Hid). apply Hno. exists r'. split; [by right|done].
    + rewrite IH. split.
      * intros Hno (r' & [->|Hin]%elem_of_cons & Hid & Hop); [done|].
        apply Hno. by exists r'.
      * intros Hno (r' & Hin & Hid). apply Hno. exists r'. split; [by right|done].
Qed.

Lemma find_open_Some w userId r :
  find (λ r, String.eqb (sr_userId r) userId && isOpen r) (supportRequests w) = Some r →
  r ∈ supportRequests w ∧ sr_userId r = userId ∧ sr_status r = OPEN.
Proof.
  induction (supportRequests w) as [|r' rs IH]; simpl; [done|].
  destruct (String.eqb_spec (sr_userId r') userId) as [Heq|Hne]; simpl.
  - unfold isOpen at 1. destruct (sr_status r') eqn:Hst.
    + intros [= ->]. split; [left|done].
    + intros (? & ? & ?)%IH. split; [by right|done].
  - intros (? & ? & ?)%IH. split; [by right|done].
Qed.

Lemma lookup_hint_None w id : lookup_hint w id = None ↔ ¬ hint_exists w id.
Proof.
  unfold lookup_hint, hint_exists. induction (hints w) as [|h hs IH]; simpl.
  - split; [|done]. intros _ (h & Hh & _). by apply elem_of_nil in Hh.
  - destruct (String.eqb_spec (hint_id h) id) as [Heq|Hne].
    + split; [done|]. intros []. exists h. split; [left|done].
    + rewrite IH. split.
      * intros Hno (h' & [->|Hin]%elem_of_cons & Hid); [done|]. apply Hno. by exists h'.
      * intros Hno (h' & Hin & Hid). apply Hno. exists h'. split; [by right|done].
Qed.

Lemma lookup_hint_Some w id h :
  lookup_hint w id = Some h → h ∈ hints w ∧ hint_id h = id.
Proof.
  unfold lookup_hint. induction (hints w) as [|h' hs IH]; simpl; [done|].
  destruct (String.eqb_spec (hint_id h') id) as [Heq|Hne].
  - intros [= ->]. split; [left|done].
  - intros [? ?]%IH. split; [by right|done].
Qed.

Lemma truthy_Some s : truthy s = true → ∃ v, s = Some v ∧ v ≠ "".
Proof.
  destruct s as [v|]; simpl; [|done].
  destruct (String.eqb_spec v ""); [done|]. by exists v.
Qed.

Lemma truthy_Some_ne v : v ≠ "" → truthy (Some v) = true.
Proof. simpl. by destruct (String.eqb_spec v ""). Qed.

(** ** Symbolic runs of [sendHintOrFeedback] *)

Lemma sendHintOrFeedback_invalid req w :
  truthy (body_stepId req) = false ∨ truthy (body_message req) = false →
  sendHintOrFeedback req w
  = (Ok (Send 400 (ErrorBody "stepId and message are required.")), w).
Proof.
  intros H. unfold sendHintOrFeedback, try_catch.
  by destruct H as [-> | ->]; rewrite ?orb_true_r.
Qed.

Lemma sendHintOrFeedback_no_user req w userId :
  truthy (body_stepId req) = true → truthy (body_message req) = true →
  params_userId req = Some userId →
  ¬ user_exists w userId →
  sendHintOrFeedback req w = (Ok (Send 404 (ErrorBody "User not found.")), w).
Proof.
  intros Hs Hm Hp Hu%find_user_None.
  unfold sendHintOrFeedback, try_catch. rewrite Hs, Hm, Hp. simpl.
  apply truthy_Some in Hs as (stepId & -> & _).
  apply truthy_Some in Hm as (message & -> & _).
  unfold mbind, M_bind, prisma_user_findUnique. by rewrite Hu.
Qed.

Lemma sendHintOrFeedback_no_request req w userId :
  truthy (body_stepId req) = true → truthy (body_message req) = true →
  params_userId req = Some userId →
  user_exists w userId →
  ¬ has_open_request w userId →
  sendHintOrFeedback req w
  = (Ok (Send 403 (ErrorBody "Cannot send hint: user has not requested support.")), w).
Proof.
  intros Hs Hm Hp Hu Hr%find_open_None.
  unfold sendHintOrFeedback, try_catch. rewrite Hs, Hm, Hp. simpl.
  apply truthy_Some in Hs as (stepId & -> & _).
  apply truthy_Some in Hm as (message & -> & _).
  unfold mbind, M_bind, prisma_user_findUnique, prisma_supportRequest_findFirst_open.
  destruct (find _ (users w)) eqn:Hf.
  - by rewrite Hr.
  - by apply find_user_None in Hf.
Qed.

Lemma sendHintOrFeedback_created req w userId stepId message supportRequest :
  body_stepId req = Some stepId → stepId ≠ "" →
  body_message req = Some message → message ≠ "" →
  params_userId req = Some userId →
  user_exists w userId →
  find (λ r, String.eqb (sr_userId r) userId && isOpen r) (supportRequests w)
    = Some supportRequest →
  let hint := created_hint req w userId supportRequest stepId message in
  sendHintOrFeedback req w
  = (Ok (sent_reply hint),
     dispatch_world userId (hint_notification req stepId message hint)
       (audit_world (send_hint_audit req userId supportRequest stepId hint)
          (set_idSeq (S (idSeq w)) (set_hints (hints w ++ [hint]) w)))).
Proof.
  intros Hs Hs' Hm Hm' Hp Hu Hr hint.
  unfold sendHintOrFeedback, try_catch. rewrite Hs, Hm, Hp.
  rewrite !truthy_Some_ne by done. simpl.
  unfold mbind, M_bind, prisma_user_findUnique, prisma_supportRequest_findFirst_open,
    prisma_hint_create.
  destruct (find _ (users w)) eqn:Hf; [|by apply find_user_None in Hf].
  rewrite Hr. fold (created_hint req w userId supportRequest stepId message). fold hint.
  unfold send_hint_audit, hint_notification.
  by rewrite logAuditEvent_run, sendNotificationToUser_run.
Qed.

Lemma sendHintOrFeedback_no_param req w :
  truthy (body_stepId req) = true → truthy (body_message req) = true →
  params_userId req = None →
  sendHintOrFeedback req w
  = (Ok (NextError prisma_validation_error),
     caught_world "Error sending hint/feedback:" prisma_validation_error w).
Proof.
  intros Hs Hm Hp. unfold sendHintOrFeedback, try_catch. by rewrite Hs, Hm, Hp.
Qed.

(** ** Symbolic runs of [getUserHints] *)

Lemma getUserHints_no_target req w :
  truthy (hints_target req) = false →
  getUserHints req w = (Ok (Send 400 (ErrorBody "User ID is required.")), w).
Proof.
  unfold getUserHints, try_catch. fold (hints_target req).
  destruct (hints_target req) as [userId|]; simpl; [|done].
  by destruct (String.eqb userId "").
Qed.

Lemma getUserHints_listed req w userId :
  hints_target req = Some userId → userId ≠ "" →
  getUserHints req w
  = (Ok (Send 200 (HintsBody (select_hint <$> hints_of w userId))),
     audit_world (actor_params req VIEW_HINT_LIST (Some userId) []) w).
Proof.
  intros Ht Hne. unfold getUserHints, try_catch. fold (hints_target req). rewrite Ht.
  destruct (String.eqb_spec userId ""); [done|].
  unfold mbind, M_bind, prisma_hint_findMany. by rewrite logAuditEvent_run.
Qed.

(** ** Symbolic runs of [markHintAsViewed] *)

Lemma actor_is_subject_or_admin_spec req h :
  id_is req (Some (hint_userId h)) || role_literal_is req "admin" = true
  ↔ actor_is_subject_or_admin req h.
Proof.
  unfold actor_is_subject_or_admin, id_is, role_literal_is.
  destruct (user req) as [a|]; simpl.
  - rewrite orb_true_iff. split.
    + intros [Hid|Hrole]; exists a; (split; [done|]).
      * left. by apply String.eqb_eq.
      * right. by destruct (actor_role a).
    + intros (a' & [= <-] & [Hid| ->]); [left|by right]. by apply String.eqb_eq.
  - split; [done|]. by intros (a & ? & _).
Qed.

Lemma update_row_found id f l h :
  find (λ h, String.eqb (hint_id h) id) l = Some h →
  (∀ h, hint_id (f h) = hint_id h) →
  ∃ l', update_row id f l = Some (f h, l')
        ∧ find (λ h, String.eqb (hint_id h) id) l' = Some (f h)
        ∧ length l' = length l.
Proof.
  intros Hfind Hid. induction l as [|h' l IH]; simpl in *; [done|].
  destruct (String.eqb (hint_id h') id) eqn:Heq.
  - injection Hfind as ->. eexists. split; [done|]. simpl. by rewrite Hid, Heq.
  - destruct (IH Hfind) as (l' & -> & Hf & Hlen). eexists. split; [done|].
    simpl. by rewrite Heq, Hf, Hlen.
Qed.

Lemma viewed_rows_lookup w id t h :
  lookup_hint w id = Some h →
  update_row id (with_viewed VIEWED (Some t)) (hints w)
    = Some (with_viewed VIEWED (Some t) h, viewed_rows id t (hints w))
  ∧ find (λ h, String.eqb (hint_id h) id) (viewed_rows id t (hints w))
    = Some (with_viewed VIEWED (Some t) h).
Proof.
  intros Hl. unfold viewed_rows.
  destruct (update_row_found id (with_viewed VIEWED (Some t)) (hints w) h Hl)
    as (l' & -> & Hf & _); done.
Qed.

Lemma markHintAsViewed_no_hint req w hintId :
  params_hintId req = Some hintId →
  ¬ hint_exists w hintId →
  markHintAsViewed req w = (Ok (Send 404 (ErrorBody "Hint not found.")), w).
Proof.
  intros Hp Hn%lookup_hint_None. unfold markHintAsViewed, try_catch. rewrite Hp.
  unfold mbind, M_bind, prisma_hint_findUnique. fold (lookup_hint w hintId). by rewrite Hn.
Qed.

Lemma markHintAsViewed_denied req w hintId h :
  params_hintId req = Some hintId →
  lookup_hint w hintId = Some h →
  ¬ actor_is_subject_or_admin req h →
  markHintAsViewed req w = (Ok (Send 403 (ErrorBody "Access denied.")), w).
Proof.
  intros Hp Hl Hno. unfold markHintAsViewed, try_catch. rewrite Hp.
  unfold mbind, M_bind, prisma_hint_findUnique. fold (lookup_hint w hintId). rewrite Hl.
  rewrite <- negb_orb.
  destruct (id_is req (Some (hint_userId h)) || role_literal_is req "admin") eqn:Hok; [|done].
  by apply actor_is_subject_or_admin_spec in Hok.
Qed.

Lemma markHintAsViewed_viewed req w hintId h :
  params_hintId req = Some hintId →
  lookup_hint w hintId = Some h →
  actor_is_subject_or_admin req h →
  markHintAsViewed req w
  = (Ok (viewed_reply h (clock w)),
     audit_world (view_hint_audit req h (clock w))
       (set_hints (viewed_rows hintId (clock w) (hints w)) w)).
Proof.
  intros Hp Hl Hok%actor_is_subject_or_admin_spec.
  unfold markHintAsViewed, try_catch. rewrite Hp.
  unfold mbind, M_bind, prisma_hint_findUnique. fold (lookup_hint w hintId). rewrite Hl.
  rewrite <- negb_orb, Hok. simpl.
  unfold new_Date, prisma_hint_update.
  destruct (viewed_rows_lookup w hintId (clock w) h Hl) as [-> _].
  by rewrite logAuditEvent_run.
Qed.

Lemma markHintAsViewed_no_param req w :
  params_hintId req = None →
  markHintAsViewed req w
  = (Ok (NextError prisma_validation_error),
     caught_world "Error marking hint as viewed:" prisma_validation_error w).
Proof. intros Hp. unfold markHintAsViewed, try_catch. by rewrite Hp. Qed.

(** ** Symbolic runs of [getUserProgress] *)

Lemma getUserProgress_no_user req w userId :
  params_userId req = Some userId →
  ¬ user_exists w userId →
  getUserProgress req w = (Ok (Send 404 (ErrorBody "User not found.")), w).
Proof.
  intros Hp Hu%find_user_None. unfold getUserProgress, try_catch. rewrite Hp.
  unfold mbind, M_bind, prisma_user_findUnique. by rewrite Hu.
Qed.

Lemma getUserProgress_no_request req w userId :
  params_userId req = Some userId →
  ¬ has_open_request w userId →
  user_exists w userId →
  getUserProgress req w
  = (Ok (Send 403 (ErrorBody "No active support request for this user.")), w).
Proof.
  intros Hp Hr%find_open_None Hu. unfold getUserProgress, try_catch. rewrite Hp.
  unfold mbind, M_bind, prisma_user_findUnique, prisma_supportRequest_findFirst_open.
  destruct (find _ (users w)) eqn:Hf; [|by apply find_user_None in Hf].
  by rewrite Hr.
Qed.

Lemma getUserProgress_viewed req w userId u r :
  params_userId req = Some userId →
  find (λ u, String.eqb (user_id u) userId) (users w) = Some u →
  find (λ r, String.eqb (sr_userId r) userId && isOpen r) (supportRequests w) = Some r →
  getUserProgress req w
  = (Ok (progress_reply u r (progress_of w userId)),
     audit_world (view_progress_audit req userId r (clock w)) w).
Proof.
  intros Hp Hu Hr. unfold getUserProgress, try_catch. rewrite Hp.
  unfold mbind, M_bind, prisma_user_findUnique, prisma_supportRequest_findFirst_open,
    prisma_progressLog_findMany, new_Date.
  rewrite Hu, Hr. by rewrite logAuditEvent_run.
Qed.

Lemma getUserProgress_no_param req w :
  params_userId req = None →
  getUserProgress req w
  = (Ok (NextError prisma_validation_error),
     caught_world "Error fetching user progress:" prisma_validation_error w).
Proof. intros Hp. unfold getUserProgress, try_catch. by rewrite Hp. Qed.

(** ** Ordering of query results *)

Section OrderByFacts.
Context {A : Type} (key : A → Z).

Lemma insertDesc_perm x l : insertDesc key x l ≡ₚ x :: l.
Proof.
  induction l as [|y l IH]; simpl; [done|].
  destruct (key y <=? key x)%Z; [done|]. by rewrite IH, Permutation_swap.
Qed.

Lemma orderByDesc_perm l : orderByDesc key l ≡ₚ l.
Proof.
  induction l as [|x l IH]; simpl; [done|]. by rewrite insertDesc_perm, IH.
Qed.

Lemma insertDesc_sorted x l :
  StronglySorted (desc key) l → StronglySorted (desc key) (insertDesc key x l).
Proof.
  induction 1 as [|y l Hs IH Hall]; simpl.
  - repeat constructor.
  - destruct (Z.leb_spec (key y) (key x)) as [Hle|Hlt].
    + constructor; [by constructor|]. constructor; [done|].
      eapply Forall_impl; [exact Hall|]. unfold desc. intros z ?. lia.
    + constructor; [done|]. rewrite insertDesc_perm. constructor; [|done].
      unfold desc. lia.
Qed.

Lemma orderByDesc_sorted l : StronglySorted (desc key) (orderByDesc key l).
Proof.
  induction l as [|x l IH]; simpl; [constructor|]. by apply insertDesc_sorted.
Qed.
End OrderByFacts.

(** ** What the side effects leave alone *)

Lemma audit_world_hints params w : hints (audit_world params w) = hints w.
Proof. unfold audit_world. by destruct (auditStoreError w). Qed.

Lemma dispatch_world_hints userId payload w :
  hints (dispatch_world userId payload w) = hints w.
Proof. unfold dispatch_world. by destruct (live_connections w userId). Qed.

Lemma dispatch_world_auditLogs userId payload w :
  auditLogs (dispatch_world userId payload w) = auditLogs w.
Proof. unfold dispatch_world. by destruct (live_connections w userId). Qed.

Lemma is_empty_truthy s : truthy s = false ↔ is_empty s.
Proof.
  unfold is_empty. destruct s as [v|]; simpl.
  - destruct (String.eqb_spec v "") as [->|Hne]; simpl.
    + split; [by right|done].
    + split; [done|]. intros [|[=]]; done.
  - split; [by left|done].
Qed.

Lemma not_is_empty_truthy s : ¬ is_empty s → truthy s = true.
Proof. rewrite <- is_empty_truthy. by destruct (truthy s). Qed.

(** ** CreateHint *)

(** C1. Every rejection of CreateHint: an empty stepId or message fails
    with ValidationError; otherwise an unknown target user fails with
    NotFoundError; otherwise a target user without an OPEN support request
    fails with ForbiddenError; and in each of these cases the hint table is
    left as it was, so no Hint is created. *)
Theorem createHint_rejections req w k :
  CreateHintRejection req w k →
  fails_with (sendHintOrFeedback req w).1 k
  ∧ hints (sendHintOrFeedback req w).2 = hints w.
Proof.
  unfold fails_with.
  inversion 1 as [Hempty | userId Hs Hm Hp Hu | userId Hs Hm Hp Hu Hr]; subst k.
  - rewrite sendHintOrFeedback_invalid; [by eauto|].
    by destruct Hempty as [?%is_empty_truthy | ?%is_empty_truthy]; [left|right].
  - apply not_is_empty_truthy in Hs, Hm.
    rewrite (sendHintOrFeedback_no_user req w userId) by done. by eauto.
  - apply not_is_empty_truthy in Hs, Hm.
    rewrite (sendHintOrFeedback_no_request req w userId) by done. by eauto.
Qed.

(** When [sendHintOrFeedback] replies 201 it went through every check. *)
Lemma sendHintOrFeedback_success_inv req w :
  succeeded (sendHintOrFeedback req w).1 = true →
  ∃ userId stepId message supportRequest,
    body_stepId req = Some stepId ∧ stepId ≠ ""
    ∧ body_message req = Some message ∧ message ≠ ""
    ∧ params_userId req = Some userId
    ∧ user_exists w userId
    ∧ open_request_of w userId = Some supportRequest.
Proof.
  intros Hrun.
  destruct (truthy (body_stepId req)) eqn:Hs;
    [|rewrite sendHintOrFeedback_invalid in Hrun by (by left); done].
  destruct (truthy (body_message req)) eqn:Hm;
    [|rewrite sendHintOrFeedback_invalid in Hrun by (by right); done].
  destruct (params_userId req) as [userId|] eqn:Hp;
    [|rewrite sendHintOrFeedback_no_param in Hrun by done; done].
  destruct (find (λ u, String.eqb (user_id u) userId) (users w)) eqn:Hu;
    [|apply find_user_None in Hu;
      rewrite (sendHintOrFeedback_no_user req w userId) in Hrun by done; done].
  apply find_user_Some in Hu.
  destruct (open_request_of w userId) as [supportRequest|] eqn:Hr;
    [|apply find_open_None in Hr;
      rewrite (sendHintOrFeedback_no_request req w userId) in Hrun by done; done].
  apply truthy_Some in Hs as (stepId & Hs & ?).
  apply truthy_Some in Hm as (message & Hm & ?).
  by exists userId, stepId, message, supportRequest.
Qed.

(** C1 at the scenario's user u2, who exists and has no OPEN support
    request. *)
Lemma createHint_rejections_witness :
  CreateHintRejection (sample_create_hint "u2") sample_world ForbiddenError
  ∧ fails_with (sendHintOrFeedback (sample_create_hint "u2") sample_world).1 ForbiddenError
  ∧ hints (sendHintOrFeedback (sample_create_hint "u2") sample_world).2 = hints sample_world.
Proof.
  assert (CreateHintRejection (sample_create_hint "u2") sample_world ForbiddenError) as Hrej.
  { apply (reject_no_open_request _ _ "u2").
    - by intros [|].
    - by intros [|].
    - done.
    - eapply find_user_Some. reflexivity.
    - apply find_open_None. reflexivity. }
  split; [exact Hrej|]. exact (createHint_rejections _ _ _ Hrej).
Defined.

(** C5. A successful CreateHint adds one Hint whose status is UNREAD, whose
    sentById and sentByRole are the id and the role of the invoking actor,
    and whose supportRequestId is the id of the OPEN support request found
    for the target user. *)
Theorem createHint_stamps_actor req w a :
  user req = Some a → actor_id a ≠ "" →
  succeeded (sendHintOrFeedback req w).1 = true →
  ∃ h r,
    hints (sendHintOrFeedback req w).2 = (hints w ++ [h])%list
    ∧ params_userId req = Some (hint_userId h)
    ∧ hint_status h = UNREAD
    ∧ hint_sentById h = Some (actor_id a)
    ∧ hint_sentByRole h = Some (role_value (actor_role a))
    ∧ open_request_of w (hint_userId h) = Some r
    ∧ r ∈ supportRequests w ∧ sr_userId r = hint_userId h ∧ sr_status r = OPEN
    ∧ hint_supportRequestId h = sr_id r.
Proof.
  intros Ha Hid (userId & stepId & message & r & Hs & ? & Hm & ? & Hp & Hu & Hr)
    %sendHintOrFeedback_success_inv.
  rewrite (sendHintOrFeedback_created req w userId stepId message r) by done.
  exists (created_hint req w userId r stepId message), r. simpl.
  rewrite dispatch_world_hints, audit_world_hints. simpl.
  destruct (find_open_Some _ _ _ Hr) as (? & ? & ?).
  rewrite Ha. simpl. unfold js_or_null. rewrite (truthy_Some_ne _ Hid).
  repeat split; try done. by destruct (actor_role a).
Qed.

(** C5 at the scenario: s1 sends u1 a hint. *)
Lemma createHint_stamps_actor_witness :
  user (sample_create_hint "u1") = Some sample_specialist
  ∧ actor_id sample_specialist ≠ ""
  ∧ succeeded (sendHintOrFeedback (sample_create_hint "u1") sample_world).1 = true
  ∧ ∃ h r,
      hints (sendHintOrFeedback (sample_create_hint "u1") sample_world).2
        = (hints sample_world ++ [h])%list
      ∧ params_userId (sample_create_hint "u1") = Some (hint_userId h)
      ∧ hint_status h = UNREAD
      ∧ hint_sentById h = Some "s1"
      ∧ hint_sentByRole h = Some "support_specialist"
      ∧ open_request_of sample_world (hint_userId h) = Some r
      ∧ r ∈ supportRequests sample_world ∧ sr_userId r = hint_userId h ∧ sr_status r = OPEN
      ∧ hint_supportRequestId h = sr_id r.
Proof.
  split; [reflexivity|]. split; [discriminate|]. split; [vm_compute; reflexivity|].
  apply (createHint_stamps_actor (sample_create_hint "u1") sample_world sample_specialist);
    [reflexivity | discriminate | vm_compute; reflexivity].
Defined.

(** ** MarkViewed *)

(** C4. MarkViewed of an unknown hint id fails with NotFoundError; of a
    hint whose subject is not the actor, by an actor who is not an admin,
    it fails with ForbiddenError and leaves the hint table, so the status and
    viewedAt of the hint, as they were; and the table changes only when the
    actor is the subject of the hint or an admin. *)
Theorem markViewed_guard req w hintId :
  params_hintId req = Some hintId →
  (¬ hint_exists w hintId →
     fails_with (markHintAsViewed req w).1 NotFoundError
     ∧ hints (markHintAsViewed req w).2 = hints w)
  ∧ (∀ h, lookup_hint w hintId = Some h → ¬ actor_is_subject_or_admin req h →
       fails_with (markHintAsViewed req w).1 ForbiddenError
       ∧ hints (markHintAsViewed req w).2 = hints w
       ∧ lookup_hint (markHintAsViewed req w).2 hintId = Some h)
  ∧ (hints (markHintAsViewed req w).2 ≠ hints w →
       ∃ h, lookup_hint w hintId = Some h ∧ actor_is_subject_or_admin req h).
Proof.
  intros Hp. unfold fails_with. split; [|split].
  - intros Hno. rewrite (markHintAsViewed_no_hint req w hintId) by done. by eauto.
  - intros h Hl Hno. rewrite (markHintAsViewed_denied req w hintId h) by done. by eauto.
  - intros Hchanged. destruct (lookup_hint w hintId) as [h|] eqn:Hl.
    + exists h. split; [done|]. apply actor_is_subject_or_admin_spec.
      destruct (id_is req (Some (hint_userId h)) || role_literal_is req "admin") eqn:Hok;
        [done|].
      rewrite (markHintAsViewed_denied req w hintId h) in Hchanged; [done..|].
      rewrite <- actor_is_subject_or_admin_spec. by rewrite Hok.
    + apply lookup_hint_None in Hl.
      by rewrite (markHintAsViewed_no_hint req w hintId) in Hchanged.
Qed.

(** C4 at the scenario: u2 tries to mark the hint of u1. *)
Lemma markViewed_guard_witness :
  params_hintId (sample_mark_viewed sample_user2) = Some "hint-1"
  ∧ fails_with (markHintAsViewed (sample_mark_viewed sample_user2) sample_world_with_hint).1
      ForbiddenError
  ∧ hint_status <$> lookup_hint
      (markHintAsViewed (sample_mark_viewed sample_user2) sample_world_with_hint).2 "hint-1"
    = Some UNREAD.
Proof.
  split; [reflexivity|].
  destruct (markViewed_guard (sample_mark_viewed sample_user2) sample_world_with_hint
              "hint-1" eq_refl) as (_ & Hdenied & _).
  destruct (lookup_hint sample_world_with_hint "hint-1") as [h|] eqn:Hl; [|discriminate].
  destruct (Hdenied h eq_refl) as (Hfail & _ & Hsame).
  - intros (a & [= <-] & [Hid|Hrole]); [|discriminate].
    vm_compute in Hl. injection Hl as <-. discriminate.
  - split; [exact Hfail|]. rewrite Hsame. vm_compute in Hl. by injection Hl as <-.
Defined.

(** C6. MarkViewed is not idempotent: on a hint that is already VIEWED an
    authorized call succeeds again, sets the status to VIEWED and stores and
    returns the time of this call as viewedAt, whatever viewedAt was. *)
Theorem markViewed_overwrites req w hintId h t0 :
  params_hintId req = Some hintId →
  lookup_hint w hintId = Some h →
  hint_status h = VIEWED → hint_viewedAt h = Some t0 →
  actor_is_subject_or_admin req h →
  (markHintAsViewed req w).1
    = Ok (Send 200 (ViewedBody "Hint marked as viewed."
            {| vh_id := hintId; vh_status := VIEWED; vh_viewedAt := Some (clock w) |}))
  ∧ lookup_hint (markHintAsViewed req w).2 hintId
    = Some (with_viewed VIEWED (Some (clock w)) h)
  ∧ (clock w ≠ t0 →
     hint_viewedAt <$> lookup_hint (markHintAsViewed req w).2 hintId ≠ Some (hint_viewedAt h)).
Proof.
  intros Hp Hl _ Ht0 Hok.
  rewrite (markHintAsViewed_viewed req w hintId h) by done. simpl.
  destruct (lookup_hint_Some _ _ _ Hl) as [_ Hid].
  assert (lookup_hint (audit_world (view_hint_audit req h (clock w))
            (set_hints (viewed_rows hintId (clock w) (hints w)) w)) hintId
          = Some (with_viewed VIEWED (Some (clock w)) h)) as Hafter.
  { unfold lookup_hint. rewrite audit_world_hints. simpl.
    by destruct (viewed_rows_lookup w hintId (clock w) h Hl) as [_ ->]. }
  split; [unfold viewed_reply; by rewrite Hid|]. split; [done|].
  rewrite Hafter, Ht0. simpl. congruence.
Qed.

(** C6 at the scenario: u1 viewed the hint at time 2000 and marks it viewed
    again at time 3000. *)
Lemma markViewed_overwrites_witness :
  hint_viewedAt <$> lookup_hint sample_world_viewed "hint-1" = Some (Some 2000%Z)
  ∧ (markHintAsViewed (sample_mark_viewed sample_user1) sample_world_viewed).1
    = Ok (Send 200 (ViewedBody "Hint marked as viewed."
            {| vh_id := "hint-1"; vh_status := VIEWED; vh_viewedAt := Some 3000%Z |}))
  ∧ hint_viewedAt <$>
      lookup_hint (markHintAsViewed (sample_mark_viewed sample_user1) sample_world_viewed).2
        "hint-1"
    = Some (Some 3000%Z).
Proof.
  split; [vm_compute; reflexivity|].
  destruct (lookup_hint sample_world_viewed "hint-1") as [h|] eqn:Hl; [|discriminate].
  assert (hint_status h = VIEWED ∧ hint_viewedAt h = Some 2000%Z ∧ hint_userId h = "u1")
    as (Hst & Hat & Hsubject).
  { vm_compute in Hl. by injection Hl as <-. }
  destruct (markViewed_overwrites (sample_mark_viewed sample_user1) sample_world_viewed
              "hint-1" h 2000 eq_refl Hl Hst Hat) as (Hreply & Hafter & _).
  - exists sample_user1. split; [reflexivity|]. left. by rewrite Hsubject.
  - split; [exact Hreply|]. by rewrite Hafter.
Defined.

(** ** ListHints *)

Lemma hints_target_user req a :
  user req = Some a → actor_role a = USER → hints_target req = Some (actor_id a).
Proof. unfold hints_target, role_literal_is. by intros -> ->. Qed.

Lemma hints_of_owned w userId :
  Forall (λ h, hint_userId h = userId) (hints_of w userId).
Proof.
  unfold hints_of. rewrite orderByDesc_perm. apply Forall_forall.
  by intros h [? _]%list_elem_of_filter.
Qed.

(** C7. ListHints by an actor with role USER lists the hints of the actor:
    whatever target the request supplies (route, query or body), the run is
    the one for the actor's own id; every Hint returned has the actor's id
    as userId, the Hints returned are exactly the actor's, and they come
    newest first. *)
Theorem listHints_user_scoped_to_self req w a :
  user req = Some a → actor_role a = USER →
  (∀ p q b,
     getUserHints (with_params_userId p (with_query_userId q (with_body_userId b req))) w
     = getUserHints req w)
  ∧ (actor_id a = "" → fails_with (getUserHints req w).1 ValidationError)
  ∧ (actor_id a ≠ "" →
     ∃ hs, (getUserHints req w).1 = Ok (Send 200 (HintsBody (select_hint <$> hs)))
           ∧ Forall (λ h, hint_userId h = actor_id a) hs
           ∧ hs ≡ₚ filter (λ h, hint_userId h = actor_id a) (hints w)
           ∧ StronglySorted newer_or_same hs).
Proof.
  intros Ha Hrole. pose proof (hints_target_user req a Ha Hrole) as Ht.
  split; [|split].
  - intros p q b.
    pose proof (hints_target_user
      (with_params_userId p (with_query_userId q (with_body_userId b req))) a Ha Hrole) as Ht'.
    destruct (String.eqb_spec (actor_id a) "") as [Hempty|Hne].
    + rewrite !getUserHints_no_target; [done|by rewrite Ht, Hempty|by rewrite Ht', Hempty].
    + by rewrite (getUserHints_listed req w (actor_id a)),
        (getUserHints_listed _ w (actor_id a)) by done.
  - intros Hempty. rewrite getUserHints_no_target by (by rewrite Ht, Hempty).
    by exists "User ID is required.".
  - intros Hne. rewrite (getUserHints_listed req w (actor_id a)) by done.
    exists (hints_of w (actor_id a)). split; [done|]. split; [apply hints_of_owned|].
    split; [apply orderByDesc_perm|apply (orderByDesc_sorted hint_createdAt)].
Qed.

(** C7 at the scenario: u1 lists hints and names u2 in the query string. *)
Lemma listHints_user_scoped_to_self_witness :
  user sample_list_hints = Some sample_user1
  ∧ actor_role sample_user1 = USER
  ∧ hv_id <$> match (getUserHints sample_list_hints sample_world_many).1 with
              | Ok (Send _ (HintsBody views)) => views
              | _ => []
              end = ["h3"; "h4"; "h1"]
  ∧ ∃ hs, (getUserHints sample_list_hints sample_world_many).1
          = Ok (Send 200 (HintsBody (select_hint <$> hs)))
          ∧ Forall (λ h, hint_userId h = "u1") hs
          ∧ hs ≡ₚ filter (λ h, hint_userId h = "u1") (hints sample_world_many)
          ∧ StronglySorted newer_or_same hs.
Proof.
  split; [reflexivity|]. split; [reflexivity|]. split; [vm_compute; reflexivity|].
  apply (listHints_user_scoped_to_self sample_list_hints sample_world_many sample_user1
           eq_refl eq_refl).
  discriminate.
Defined.

(** On the route the query string is not looked at by the middleware: u1
    naming u2 there gets their own hints. *)
Example route_get_hint_ignores_query :
  hv_id <$> match (route_get_hint sample_list_hints sample_world_many).1 with
            | Ok (Send _ (HintsBody views)) => views
            | _ => []
            end = ["h3"; "h4"; "h1"]
  ∧ al_action <$> auditLogs (route_get_hint sample_list_hints sample_world_many).2
    = [VIEW_HINT_LIST].
Proof. split; vm_compute; reflexivity. Qed.

(** ** The access policy of list-own-hints *)

Lemma carries_userId_spec req uid :
  carries_userId req uid ↔ userIdParam req = Some uid ∧ uid ≠ "".
Proof.
  unfold userIdParam, js_or. split.
  - intros [Hp Hne | Hp Hb Hne].
    + by rewrite Hp, truthy_Some_ne.
    + apply is_empty_truthy in Hp. by rewrite Hp.
  - intros [Hu Hne]. destruct (truthy (params_userId req)) eqn:Hp.
    + by apply carried_in_route.
    + apply carried_in_body; [by apply is_empty_truthy|done..].
Qed.

Lemma carries_none_spec req :
  (¬ ∃ uid, carries_userId req uid) ↔ truthy (userIdParam req) = false.
Proof.
  split.
  - intros Hno. destruct (truthy (userIdParam req)) eqn:Ht; [|done].
    destruct Hno. apply truthy_Some in Ht as (uid & ? & ?).
    exists uid. by apply carries_userId_spec.
  - intros Ht (uid & [Hu Hne]%carries_userId_spec).
    by rewrite Hu, truthy_Some_ne in Ht.
Qed.

Lemma role_is_spec req r :
  role_is req r = true ↔ ∃ a, user req = Some a ∧ actor_role a = r.
Proof.
  unfold role_is. destruct (user req) as [a|].
  - rewrite bool_decide_eq_true. split; [by exists a|]. by intros (? & [= <-] & ?).
  - split; [done|]. by intros (? & ? & _).
Qed.

Lemma carries_own_spec req :
  truthy (userIdParam req) && id_is req (userIdParam req) = true
  ↔ ∃ a, user req = Some a ∧ carries_userId req (actor_id a).
Proof.
  unfold id_is. split.
  - intros [Ht Hid]%andb_true_iff. apply truthy_Some in Ht as (uid & Hu & Hne).
    rewrite Hu in Hid. destruct (user req) as [a|]; [|done].
    apply String.eqb_eq in Hid. subst uid. exists a. split; [done|].
    by apply carries_userId_spec.
  - intros (a & -> & [Hu Hne]%carries_userId_spec). rewrite Hu.
    rewrite truthy_Some_ne by done. simpl. by apply String.eqb_eq.
Qed.

(** C2, as the code has it. The middleware either passes the request on
    unchanged or replies 403, without any other effect; it passes the
    request on iff the actor's role is SUPPORT_SPECIALIST or ADMIN, or the
    actor's role is USER and the request carries no user id or carries the
    actor's own id. A USER who names their own id is allowed. *)
Theorem list_own_hints_policy req w :
  (authorizeUserOrSupportSpecialist req w = (Ok (Next req), w)
   ∨ authorizeUserOrSupportSpecialist req w = (Ok (Send 403 (ErrorBody "Access denied.")), w))
  ∧ (verdict (authorizeUserOrSupportSpecialist req w).1 = Some Allow
     ↔ ∃ a, user req = Some a
            ∧ (actor_role a = SUPPORT_SPECIALIST ∨ actor_role a = ADMIN
               ∨ (actor_role a = USER
                  ∧ ((¬ ∃ uid, carries_userId req uid) ∨ carries_userId req (actor_id a))))).
Proof.
  unfold authorizeUserOrSupportSpecialist.
  destruct (role_is req SUPPORT_SPECIALIST || role_is req ADMIN) eqn:Hstaff.
  { split; [by left|]. split; [|done]. intros _.
    apply orb_true_iff in Hstaff as [(a & ? & ?)%role_is_spec | (a & ? & ?)%role_is_spec];
      exists a; auto. }
  apply orb_false_iff in Hstaff as [Hss Hadmin].
  destruct (truthy (userIdParam req) && id_is req (userIdParam req)) eqn:Hown.
  { split; [by left|]. split; [|done]. intros _.
    apply carries_own_spec in Hown as (a & Ha & Hc). exists a. split; [done|].
    right. right. split; [|by right].
    destruct (actor_role a) eqn:Hr; [done|..].
    - assert (role_is req SUPPORT_SPECIALIST = true) by (apply role_is_spec; eauto). congruence.
    - assert (role_is req ADMIN = true) by (apply role_is_spec; eauto). congruence. }
  destruct (negb (truthy (userIdParam req)) && role_is req USER) eqn:Hnone.
  { split; [by left|]. split; [|done]. intros _.
    apply andb_true_iff in Hnone as [Ht%negb_true_iff (a & Ha & Hr)%role_is_spec].
    exists a. split; [done|]. right. right. split; [done|]. left.
    by apply carries_none_spec. }
  split; [by right|]. split; [done|].
  intros (a & Ha & [Hr | [Hr | (Hr & [Hno | Hc])]]).
  - assert (role_is req SUPPORT_SPECIALIST = true) by (apply role_is_spec; eauto). congruence.
  - assert (role_is req ADMIN = true) by (apply role_is_spec; eauto). congruence.
  - apply carries_none_spec in Hno. rewrite Hno in Hnone. simpl in Hnone.
    assert (role_is req USER = true) by (apply role_is_spec; eauto). congruence.
  - assert (truthy (userIdParam req) && id_is req (userIdParam req) = true)
      by (apply carries_own_spec; eauto). congruence.
Qed.

(** C2 as the specification words it fails where a USER names their own id:
    the specification's policy denies, the middleware allows. *)
Lemma list_own_hints_policy_counterexample :
  actor_role sample_user1 = USER
  ∧ explicit_target sample_list_own = true
  ∧ claimed_list_own_hints sample_list_own = Deny
  ∧ verdict (authorizeUserOrSupportSpecialist sample_list_own sample_world).1 = Some Allow.
Proof. repeat split; vm_compute; reflexivity. Qed.

(** C10. A USER whose request carries a user id other than their own is
    turned away by the middleware with 403 and nothing else happens: the
    handler behind the middleware does not run, whichever it is. On the two
    routes behind this middleware, list hints and mark viewed, the id comes
    in the body. *)
Theorem user_naming_other_user_rejected req w a uid :
  actor_role a = USER →
  carries_userId req uid →
  uid ≠ actor_id a →
  (user req = Some a →
     authorizeUserOrSupportSpecialist req w = (Ok (Send 403 (ErrorBody "Access denied.")), w)
     ∧ ∀ operation : Handler,
         run_chain [authorizeUserOrSupportSpecialist; operation] req w
         = (Ok (Send 403 (ErrorBody "Access denied.")), w))
  ∧ (bearer req = GoodToken a →
     route_get_hint req w = (Ok (Send 403 (ErrorBody "Access denied.")), w)
     ∧ route_post_hint_view req w = (Ok (Send 403 (ErrorBody "Access denied.")), w)).
Proof.
  intros Hrole Hc Hne.
  assert (∀ req', user req' = Some a → carries_userId req' uid →
    authorizeUserOrSupportSpecialist req' w
    = (Ok (Send 403 (ErrorBody "Access denied.")), w)) as Hdeny.
  { intros req' Ha [Hu Hne']%carries_userId_spec.
    unfold authorizeUserOrSupportSpecialist, role_is, id_is.
    rewrite Ha, Hrole, Hu, (truthy_Some_ne _ Hne'). simpl.
    destruct (String.eqb_spec (actor_id a) uid); [congruence|done]. }
  split.
  - intros Ha. split; [by apply Hdeny|]. intros operation. simpl.
    by rewrite (bind_ok _ _ _ _ _ (Hdeny req Ha Hc)).
  - intros Hb.
    assert (carries_userId (set_user (Some a) req) uid) as Hc'.
    { apply carries_userId_spec. by apply carries_userId_spec in Hc. }
    pose proof (Hdeny (set_user (Some a) req) eq_refl Hc') as Hdenied.
    unfold route_get_hint, route_post_hint_view. simpl.
    unfold authenticateJWT. rewrite Hb.
    split; (rewrite (bind_ok _ _ _ (Next (set_user (Some a) req)) w) by done;
            by rewrite (bind_ok _ _ _ _ _ Hdenied)).
Qed.

(** C10 at the scenario: u1 asks for the hints of u2 in the body. *)
Lemma user_naming_other_user_rejected_witness :
  actor_role sample_user1 = USER
  ∧ carries_userId sample_list_foreign "u2"
  ∧ "u2" ≠ actor_id sample_user1
  ∧ route_get_hint sample_list_foreign sample_world_many
    = (Ok (Send 403 (ErrorBody "Access denied.")), sample_world_many).
Proof.
  assert (carries_userId sample_list_foreign "u2") as Hc.
  { apply carried_in_body; [by left|reflexivity|discriminate]. }
  split; [reflexivity|]. split; [exact Hc|]. split; [discriminate|].
  apply (user_naming_other_user_rejected sample_list_foreign sample_world_many
           sample_user1 "u2" eq_refl Hc); [discriminate|reflexivity].
Defined.

(** ** The notification dispatcher *)

(** C9. A dispatch to a user without a live connection, or before the socket
    server exists, returns normally. It writes one warning line to the
    console and changes nothing else: nothing is emitted on any socket and
    the notification is kept nowhere, so a connection that registers for
    the user afterwards receives nothing. *)
Theorem dispatch_without_connection userId payload w :
  no_live_connection w userId →
  is_warning (undelivered_entry w userId)
  ∧ sendNotificationToUser userId payload w
    = (Ok tt, set_console (console w ++ [undelivered_entry w userId]) w)
  ∧ emitted (sendNotificationToUser userId payload w).2 = emitted w
  ∧ ∀ socketId,
      emitted (on_register socketId userId (sendNotificationToUser userId payload w).2).2
      = emitted w.
Proof.
  intros Hno.
  assert (live_connections w userId = []) as Hlive.
  { unfold live_connections. destruct Hno as [-> | [-> | ->]]; [done|by destruct (io w)..]. }
  rewrite sendNotificationToUser_run. unfold dispatch_world. rewrite Hlive.
  split; [|split; [done|split; [done|]]].
  - unfold is_warning, undelivered_entry. destruct (io w); auto.
  - intros socketId. unfold on_register, modify. simpl. by destruct (String.eqb userId "").
Qed.

(** C9 for u2, who has no connection, and for a server without sockets. *)
Lemma dispatch_without_connection_witness :
  no_live_connection sample_world "u2"
  ∧ no_live_connection (set_io false sample_world) "u1"
  ∧ (sendNotificationToUser "u2"
       (hint_notification (sample_create_hint "u2") "step-3" "try the left lever"
          (sample_hint "h1" "u2" 10)) sample_world).1 = Ok tt
  ∧ ce_level <$> console (sendNotificationToUser "u2"
       (hint_notification (sample_create_hint "u2") "step-3" "try the left lever"
          (sample_hint "h1" "u2" 10)) sample_world).2 = [ConsoleWarn]
  ∧ ce_level <$> console (sendNotificationToUser "u1"
       (hint_notification (sample_create_hint "u1") "step-3" "try the left lever"
          (sample_hint "h1" "u1" 10)) (set_io false sample_world)).2 = [ConsoleError].
Proof.
  assert (no_live_connection sample_world "u2") as Hu2 by (right; left; reflexivity).
  assert (no_live_connection (set_io false sample_world) "u1") as Hu1 by (left; reflexivity).
  split; [exact Hu2|]. split; [exact Hu1|].
  pose proof (dispatch_without_connection "u2"
    (hint_notification (sample_create_hint "u2") "step-3" "try the left lever"
       (sample_hint "h1" "u2" 10)) sample_world Hu2) as (_ & Hrun2 & _).
  pose proof (dispatch_without_connection "u1"
    (hint_notification (sample_create_hint "u1") "step-3" "try the left lever"
       (sample_hint "h1" "u1" 10)) (set_io false sample_world) Hu1) as (_ & Hrun1 & _).
  rewrite Hrun2, Hrun1. repeat split.
Defined.

(** ** The audit recorder *)

Lemma audit_world_live params w userId :
  live_connections (audit_world params w) userId = live_connections w userId.
Proof. unfold audit_world. by destruct (auditStoreError w). Qed.

Lemma audit_world_emitted params w : emitted (audit_world params w) = emitted w.
Proof. unfold audit_world. by destruct (auditStoreError w). Qed.

Lemma dispatch_world_emitted userId payload w :
  emitted (dispatch_world userId payload w)
  = (emitted w ++ ((λ s, (s, payload)) <$> live_connections w userId))%list.
Proof.
  unfold dispatch_world. destruct (live_connections w userId); simpl; [|done].
  by rewrite app_nil_r.
Qed.

Lemma sendHintOrFeedback_ignores_audit_store : ignores_audit_store sendHintOrFeedback.
Proof.
  intros req w e.
  destruct (truthy (body_stepId req)) eqn:Hs;
    [|by rewrite !sendHintOrFeedback_invalid by (by left)].
  destruct (truthy (body_message req)) eqn:Hm;
    [|by rewrite !sendHintOrFeedback_invalid by (by right)].
  destruct (params_userId req) as [userId|] eqn:Hp;
    [|by rewrite !sendHintOrFeedback_no_param by done].
  destruct (find (λ u, String.eqb (user_id u) userId) (users w)) eqn:Hu;
    [apply find_user_Some in Hu
    |apply find_user_None in Hu;
     by rewrite (sendHintOrFeedback_no_user req w userId),
       (sendHintOrFeedback_no_user req (set_auditStoreError e w) userId) by done].
  destruct (open_request_of w userId) as [r|] eqn:Hr;
    [|apply find_open_None in Hr;
      by rewrite (sendHintOrFeedback_no_request req w userId),
        (sendHintOrFeedback_no_request req (set_auditStoreError e w) userId) by done].
  apply truthy_Some in Hs as (stepId & Hs & ?).
  apply truthy_Some in Hm as (message & Hm & ?).
  rewrite (sendHintOrFeedback_created req w userId stepId message r),
    (sendHintOrFeedback_created req (set_auditStoreError e w) userId stepId message r) by done.
  simpl. rewrite !dispatch_world_hints, !audit_world_hints, !dispatch_world_emitted,
    !audit_world_live, !audit_world_emitted. done.
Qed.

Lemma getUserHints_ignores_audit_store : ignores_audit_store getUserHints.
Proof.
  intros req w e.
  destruct (truthy (hints_target req)) eqn:Ht;
    [|by rewrite !getUserHints_no_target by done].
  apply truthy_Some in Ht as (userId & Ht & ?).
  rewrite (getUserHints_listed req w userId),
    (getUserHints_listed req (set_auditStoreError e w) userId) by done.
  simpl. by rewrite !audit_world_hints, !audit_world_emitted.
Qed.

Lemma markHintAsViewed_ignores_audit_store : ignores_audit_store markHintAsViewed.
Proof.
  intros req w e.
  destruct (params_hintId req) as [hintId|] eqn:Hp;
    [|by rewrite !markHintAsViewed_no_param by done].
  destruct (lookup_hint w hintId) as [h|] eqn:Hl;
    [|apply lookup_hint_None in Hl;
      by rewrite (markHintAsViewed_no_hint req w hintId),
        (markHintAsViewed_no_hint req (set_auditStoreError e w) hintId) by done].
  destruct (id_is req (Some (hint_userId h)) || role_literal_is req "admin") eqn:Hok.
  - apply actor_is_subject_or_admin_spec in Hok.
    rewrite (markHintAsViewed_viewed req w hintId h),
      (markHintAsViewed_viewed req (set_auditStoreError e w) hintId h) by done.
    simpl. by rewrite !audit_world_hints, !audit_world_emitted.
  - assert (¬ actor_is_subject_or_admin req h) as Hno.
    { rewrite <- actor_is_subject_or_admin_spec. by rewrite Hok. }
    by rewrite (markHintAsViewed_denied req w hintId h),
      (markHintAsViewed_denied req (set_auditStoreError e w) hintId h) by done.
Qed.

Lemma getUserProgress_ignores_audit_store : ignores_audit_store getUserProgress.
Proof.
  intros req w e.
  destruct (params_userId req) as [userId|] eqn:Hp;
    [|by rewrite !getUserProgress_no_param by done].
  destruct (find (λ u, String.eqb (user_id u) userId) (users w)) as [u|] eqn:Hu;
    [|apply find_user_None in Hu;
      by rewrite (getUserProgress_no_user req w userId),
        (getUserProgress_no_user req (set_auditStoreError e w) userId) by done].
  destruct (open_request_of w userId) as [r|] eqn:Hr;
    [|apply find_open_None in Hr; apply find_user_Some in Hu;
      by rewrite (getUserProgress_no_request req w userId),
        (getUserProgress_no_request req (set_auditStoreError e w) userId) by done].
  rewrite (getUserProgress_viewed req w userId u r),
    (getUserProgress_viewed req (set_auditStoreError e w) userId u r) by done.
  simpl. by rewrite !audit_world_hints, !audit_world_emitted.
Qed.

Lemma ignores_audit_store_independent h :
  ignores_audit_store h → audit_independent h.
Proof.
  intros Hind req w failure.
  destruct (Hind req w (Some failure)) as (-> & -> & ->).
  by destruct (Hind req w None) as (-> & -> & ->).
Qed.

(** C8. Record never raises: whatever the audit store does with the write,
    [logAuditEvent] returns normally; when the store rejects the write the
    only trace is one line on the console. So for each of the four
    controllers the reply, the hint table and the notifications emitted are
    the same whether the audit write succeeds or fails. *)
Theorem audit_record_never_raises params w :
  (logAuditEvent params w).1 = Ok tt
  ∧ (∀ e, auditStoreError w = Some e →
       (logAuditEvent params w).2
       = set_console (console w ++
           [{| ce_level := ConsoleError; ce_text := "Audit log error:";
               ce_error := Some e |}]) w)
  ∧ audit_independent sendHintOrFeedback
  ∧ audit_independent getUserHints
  ∧ audit_independent markHintAsViewed
  ∧ audit_independent getUserProgress.
Proof.
  rewrite logAuditEvent_run. split; [done|]. split.
  - intros e He. simpl. unfold audit_world. by rewrite He.
  - split; [|split; [|split]]; apply ignores_audit_store_independent.
    + apply sendHintOrFeedback_ignores_audit_store.
    + apply getUserHints_ignores_audit_store.
    + apply markHintAsViewed_ignores_audit_store.
    + apply getUserProgress_ignores_audit_store.
Qed.

(** The scenario with a failing audit store: the hint is created and
    delivered all the same, and the failure is on the console. *)
Example createHint_with_failing_audit_store :
  let w := set_auditStoreError (Some "connection refused") sample_world in
  (sendHintOrFeedback (sample_create_hint "u1") w).1
    = (sendHintOrFeedback (sample_create_hint "u1") sample_world).1
  ∧ hint_id <$> hints (sendHintOrFeedback (sample_create_hint "u1") w).2 = ["hint-1"]
  ∧ fst <$> emitted (sendHintOrFeedback (sample_create_hint "u1") w).2 = ["socket-a"]
  ∧ auditLogs (sendHintOrFeedback (sample_create_hint "u1") w).2 = []
  ∧ ce_text <$> console (sendHintOrFeedback (sample_create_hint "u1") w).2
    = ["Audit log error:"].
Proof. repeat split; vm_compute; reflexivity. Qed.

(** ** Audit events of the controllers *)

Ltac decide_succeeded b :=
  match goal with
  | |- context [succeeded ?r] =>
      replace (succeeded r) with b by (vm_compute; reflexivity)
  end.

Ltac one_event :=
  unfold appends_one_event; rewrite ?dispatch_world_auditLogs;
  unfold audit_world; simpl;
  match goal with
  | |- context [auditStoreError ?w] =>
      destruct (auditStoreError w); [done|by eexists]
  end.

Lemma sendHintOrFeedback_audits : audits_on_success sendHintOrFeedback SEND_HINT.
Proof.
  intros req w.
  destruct (truthy (body_stepId req)) eqn:Hs;
    [|rewrite sendHintOrFeedback_invalid by (by left); by decide_succeeded false].
  destruct (truthy (body_message req)) eqn:Hm;
    [|rewrite sendHintOrFeedback_invalid by (by right); by decide_succeeded false].
  destruct (params_userId req) as [userId|] eqn:Hp;
    [|rewrite sendHintOrFeedback_no_param by done; by decide_succeeded false].
  destruct (find (λ u, String.eqb (user_id u) userId) (users w)) eqn:Hu;
    [apply find_user_Some in Hu
    |apply find_user_None in Hu;
     rewrite (sendHintOrFeedback_no_user req w userId) by done;
     by decide_succeeded false].
  destruct (open_request_of w userId) as [r|] eqn:Hr;
    [|apply find_open_None in Hr;
      rewrite (sendHintOrFeedback_no_request req w userId) by done;
      by decide_succeeded false].
  apply truthy_Some in Hs as (stepId & Hs & ?).
  apply truthy_Some in Hm as (message & Hm & ?).
  rewrite (sendHintOrFeedback_created req w userId stepId message r) by done.
  simpl. one_event.
Qed.

Lemma getUserHints_audits : audits_on_success getUserHints VIEW_HINT_LIST.
Proof.
  intros req w.
  destruct (truthy (hints_target req)) eqn:Ht;
    [|rewrite getUserHints_no_target by done; by decide_succeeded false].
  apply truthy_Some in Ht as (userId & Ht & ?).
  rewrite (getUserHints_listed req w userId) by done.
  simpl. one_event.
Qed.

Lemma markHintAsViewed_audits : audits_on_success markHintAsViewed VIEW_HINT.
Proof.
  intros req w.
  destruct (params_hintId req) as [hintId|] eqn:Hp;
    [|rewrite markHintAsViewed_no_param by done; by decide_succeeded false].
  destruct (lookup_hint w hintId) as [h|] eqn:Hl;
    [|apply lookup_hint_None in Hl;
      rewrite (markHintAsViewed_no_hint req w hintId) by done;
      by decide_succeeded false].
  destruct (id_is req (Some (hint_userId h)) || role_literal_is req "admin") eqn:Hok.
  - apply actor_is_subject_or_admin_spec in Hok.
    rewrite (markHintAsViewed_viewed req w hintId h) by done.
    simpl. one_event.
  - assert (¬ actor_is_subject_or_admin req h) as Hno.
    { rewrite <- actor_is_subject_or_admin_spec. by rewrite Hok. }
    rewrite (markHintAsViewed_denied req w hintId h) by done.
    by decide_succeeded false.
Qed.

Lemma getUserProgress_audits : audits_on_success getUserProgress VIEW_USER_PROGRESS.
Proof.
  intros req w.
  destruct (params_userId req) as [userId|] eqn:Hp;
    [|rewrite getUserProgress_no_param by done; by decide_succeeded false].
  destruct (find (λ u, String.eqb (user_id u) userId) (users w)) as [u|] eqn:Hu;
    [|apply find_user_None in Hu;
      rewrite (getUserProgress_no_user req w userId) by done;
      by decide_succeeded false].
  destruct (open_request_of w userId) as [r|] eqn:Hr;
    [|apply find_open_None in Hr; apply find_user_Some in Hu;
      rewrite (getUserProgress_no_request req w userId) by done;
      by decide_succeeded false].
  rewrite (getUserProgress_viewed req w userId u r) by done.
  simpl. one_event.
Qed.

(** C3, as the code has it. Each of CreateHint, ListHints, MarkViewed and
    ViewProgress records its audit event only when it succeeds: a
    successful run appends exactly one AuditEvent with the action tag
    SEND_HINT, VIEW_HINT_LIST, VIEW_HINT or VIEW_USER_PROGRESS respectively
    when the audit store takes the write, whatever becomes of the
    notification; a run that is rejected appends none. *)
Theorem audit_event_on_success_only :
  audits_on_success sendHintOrFeedback SEND_HINT
  ∧ audits_on_success getUserHints VIEW_HINT_LIST
  ∧ audits_on_success markHintAsViewed VIEW_HINT
  ∧ audits_on_success getUserProgress VIEW_USER_PROGRESS.
Proof.
  split; [|split; [|split]].
  - apply sendHintOrFeedback_audits.
  - apply getUserHints_audits.
  - apply markHintAsViewed_audits.
  - apply getUserProgress_audits.
Qed.

(** C3 as the specification words it fails on a rejected call: ViewProgress
    of u2, who has no OPEN support request, is rejected with 403 and the
    audit log stays empty. *)
Lemma rejected_call_records_no_event_counterexample :
  fails_with (getUserProgress (sample_view_progress "u2") sample_world).1 ForbiddenError
  ∧ ¬ appends_one_event VIEW_USER_PROGRESS sample_world
        (getUserProgress (sample_view_progress "u2") sample_world).2.
Proof.
  split.
  - by exists "No active support request for this user.".
  - intros (ev & Hlog & _). vm_compute in Hlog. discriminate.
Qed.

(** The scenario of a success: s1 sends u1 a hint, one SEND_HINT event is
    recorded, also when nobody is connected. *)
Example createHint_records_one_event :
  al_action <$> auditLogs (sendHintOrFeedback (sample_create_hint "u1") sample_world).2
    = [SEND_HINT]
  ∧ al_action <$> auditLogs
      (sendHintOrFeedback (sample_create_hint "u1") (set_io false sample_world)).2
    = [SEND_HINT].
Proof. split; vm_compute; reflexivity. Qed.

(** * Further properties of the pipeline *)

(** ** Authentication and the routes *)

(** X1. Without a token that verifies, whatever stands behind [authenticateJWT]
    on a route does not run: the reply is 401 and at most the console
    changes, and not even that when the header is missing. *)
Theorem unauthenticated_request_stops (rest : list Handler) req w :
  (∀ claims, bearer req ≠ GoodToken claims) →
  fails_with (run_chain (authenticateJWT :: rest) req w).1 UnauthenticatedError
  ∧ only_console_differs w (run_chain (authenticateJWT :: rest) req w).2
  ∧ (bearer req = NoBearer → (run_chain (authenticateJWT :: rest) req w).2 = w).
Proof.
  intros Hbad. simpl. unfold authenticateJWT, fails_with, only_console_differs.
  destruct (bearer req) as [|err|claims] eqn:Hb; [| |by destruct (Hbad claims)].
  - split; [by eexists|]. split; [by destruct w|done].
  - split; [by eexists|]. split; [done|done].
Qed.

Lemma unauthenticated_request_stops_witness :
  (∀ claims, bearer (sample_incoming_hint (BadToken "jwt expired")) ≠ GoodToken claims)
  ∧ fails_with (route_post_hint (sample_incoming_hint (BadToken "jwt expired")) sample_world).1
      UnauthenticatedError
  ∧ hints (route_post_hint (sample_incoming_hint (BadToken "jwt expired")) sample_world).2 = []
  ∧ ce_text <$>
      console (route_post_hint (sample_incoming_hint (BadToken "jwt expired")) sample_world).2
    = ["JWT authentication error:"].
Proof.
  assert (∀ claims,
    bearer (sample_incoming_hint (BadToken "jwt expired")) ≠ GoodToken claims) as Hbad
    by (intros claims; discriminate).
  split; [exact Hbad|].
  destruct (unauthenticated_request_stops [authorizeSupportSpecialist; sendHintOrFeedback]
              (sample_incoming_hint (BadToken "jwt expired")) sample_world Hbad)
    as (Hfail & _ & _).
  split; [exact Hfail|]. split; reflexivity.
Defined.

(** X2. The actor of a request is the one of the token. Whatever [req.user] a
    request arrives with has no influence on a route, and with a token that
    verifies the handlers behind [authenticateJWT] run with the claims of
    the token as [req.user]. *)
Theorem identity_comes_from_token (rest : list Handler) u req w :
  run_chain (authenticateJWT :: rest) (set_user u req) w
  = run_chain (authenticateJWT :: rest) req w
  ∧ ∀ claims, bearer req = GoodToken claims →
      run_chain (authenticateJWT :: rest) req w
      = run_chain rest (set_user (Some claims) req) w.
Proof.
  simpl. unfold authenticateJWT. simpl.
  destruct (bearer req) as [|err|claims]; split; try done.
  by intros ? [= <-].
Qed.

(** X3. A USER gets nothing from the two routes of the support specialists:
    sending a hint and viewing progress reply 403, and the world is left as
    it was, whatever the request holds. *)
Theorem user_barred_from_specialist_routes req w a :
  bearer req = GoodToken a → actor_role a = USER →
  route_post_hint req w
  = (Ok (Send 403 (ErrorBody "Access denied. Support Specialist role required.")), w)
  ∧ route_get_progress req w
    = (Ok (Send 403 (ErrorBody "Access denied. Support Specialist role required.")), w).
Proof.
  intros Hb Hrole. unfold route_post_hint, route_get_progress. simpl.
  unfold authenticateJWT. rewrite Hb.
  assert (authorizeSupportSpecialist (set_user (Some a) req) w
          = (Ok (Send 403 (ErrorBody "Access denied. Support Specialist role required.")), w))
    as Hdenied.
  { unfold authorizeSupportSpecialist, role_is. simpl. by rewrite Hrole. }
  split; (rewrite (bind_ok _ _ _ (Next (set_user (Some a) req)) w) by done;
          by rewrite (bind_ok _ _ _ _ _ Hdenied)).
Qed.

Lemma user_barred_from_specialist_routes_witness :
  bearer (with_bearer (GoodToken sample_user2) (sample_create_hint "u1")) = GoodToken sample_user2
  ∧ actor_role sample_user2 = USER
  ∧ route_post_hint (with_bearer (GoodToken sample_user2) (sample_create_hint "u1")) sample_world
    = (Ok (Send 403 (ErrorBody "Access denied. Support Specialist role required.")),
       sample_world).
Proof.
  split; [reflexivity|]. split; [reflexivity|].
  apply (user_barred_from_specialist_routes
           (with_bearer (GoodToken sample_user2) (sample_create_hint "u1")) sample_world
           sample_user2 eq_refl eq_refl).
Defined.

(** X4. The middleware in front of mark-viewed lets every support specialist
    through, but the controller does not: a support specialist who is not
    the subject of the hint is answered 403 and the hint stays as it is. *)
Theorem specialist_cannot_mark_viewed req w a hintId h :
  bearer req = GoodToken a → actor_role a = SUPPORT_SPECIALIST →
  params_hintId req = Some hintId →
  lookup_hint w hintId = Some h →
  hint_userId h ≠ actor_id a →
  (authorizeUserOrSupportSpecialist (set_user (Some a) req) w).1
    = Ok (Next (set_user (Some a) req))
  ∧ route_post_hint_view req w = (Ok (Send 403 (ErrorBody "Access denied.")), w).
Proof.
  intros Hb Hrole Hp Hl Hne.
  assert (authorizeUserOrSupportSpecialist (set_user (Some a) req) w
          = (Ok (Next (set_user (Some a) req)), w)) as Hpass.
  { unfold authorizeUserOrSupportSpecialist, role_is. simpl. by rewrite Hrole. }
  split; [by rewrite Hpass|].
  unfold route_post_hint_view. simpl. unfold authenticateJWT. rewrite Hb.
  rewrite (bind_ok _ _ _ (Next (set_user (Some a) req)) w) by done.
  rewrite (bind_ok _ _ _ _ _ Hpass).
  rewrite (bind_ok _ _ _ (Send 403 (ErrorBody "Access denied.")) w); [done|].
  apply (markHintAsViewed_denied _ w hintId h); [done..|].
  intros (a' & [= <-] & [Hid|Hadmin]); congruence.
Qed.

Lemma specialist_cannot_mark_viewed_witness :
  actor_role sample_specialist = SUPPORT_SPECIALIST
  ∧ hint_userId <$> lookup_hint sample_world_with_hint "hint-1" = Some "u1"
  ∧ route_post_hint_view (sample_mark_viewed sample_specialist) sample_world_with_hint
    = (Ok (Send 403 (ErrorBody "Access denied.")), sample_world_with_hint).
Proof.
  split; [reflexivity|]. split; [vm_compute; reflexivity|].
  destruct (lookup_hint sample_world_with_hint "hint-1") as [h|] eqn:Hl; [|discriminate].
  assert (hint_userId h = "u1") as Hsubject by (vm_compute in Hl; by injection Hl as <-).
  apply (specialist_cannot_mark_viewed (sample_mark_viewed sample_specialist)
           sample_world_with_hint sample_specialist "hint-1" h eq_refl eq_refl eq_refl Hl).
  rewrite Hsubject. discriminate.
Defined.

(** ** The connection directory *)

Lemma set_add_elem x s : x ∈ set_add x s.
Proof.
  unfold set_add. case_bool_decide; [done|]. apply elem_of_app. right. by left.
Qed.

Lemma set_add_twice x s : set_add x (set_add x s) = set_add x s.
Proof.
  unfold set_add at 1. by rewrite bool_decide_eq_true_2 by apply set_add_elem.
Qed.

Lemma set_add_NoDup x s : NoDup s → NoDup (set_add x s).
Proof.
  intros Hs. unfold set_add. case_bool_decide as Hin; [done|].
  apply NoDup_app. split; [done|]. split; [|apply NoDup_singleton].
  intros y Hy ->%list_elem_of_singleton. done.
Qed.

Lemma set_add_not_nil x s : set_add x s ≠ [].
Proof.
  intros Hnil. pose proof (set_add_elem x s) as Hin. rewrite Hnil in Hin.
  by apply elem_of_nil in Hin.
Qed.

Lemma on_register_run socketId userId w :
  userId ≠ "" →
  on_register socketId userId w
  = (Ok tt, set_userSocketMap
              (<[userId := set_add socketId (connections_of w userId)]> (userSocketMap w)) w).
Proof.
  intros Hne. unfold on_register, connections_of, modify.
  destruct (String.eqb_spec userId ""); [done|]. do 2 f_equal.
  destruct (userSocketMap w !! userId) as [sockets|] eqn:Hl; simpl.
  - apply map_eq. intros k. rewrite lookup_alter, lookup_insert.
    case_decide; [subst k; by rewrite Hl|done].
  - by rewrite alter_insert_eq.
Qed.

Lemma on_register_empty socketId w : on_register socketId "" w = (Ok tt, w).
Proof. done. Qed.

Lemma on_disconnect_lookup socketId w userId :
  userSocketMap (on_disconnect socketId w).2 !! userId
  = userSocketMap w !! userId ≫= drop_socket socketId.
Proof. unfold on_disconnect, modify. simpl. by rewrite lookup_omap. Qed.

Lemma drop_socket_unknown socketId sockets :
  socketId ∉ sockets → drop_socket socketId sockets = Some sockets.
Proof. intros Hno. unfold drop_socket. by rewrite bool_decide_eq_false_2. Qed.

Lemma drop_socket_gone socketId sockets sockets' :
  drop_socket socketId sockets = Some sockets' → socketId ∉ sockets'.
Proof.
  unfold drop_socket. case_bool_decide as Hin.
  - destruct (filter _ sockets) eqn:Hf; [done|]. intros [= <-]. rewrite <- Hf.
    by intros [? _]%list_elem_of_filter.
  - by intros [= <-].
Qed.

Lemma filter_other_snoc (x : string) (s : list string) :
  x ∉ s → filter (λ y, y ≠ x) (s ++ [x])%list = s.
Proof.
  intros Hno. rewrite filter_app.
  rewrite (filter_cons_False (λ y, y ≠ x) x []) by (intros H; by apply H).
  rewrite filter_nil, app_nil_r.
  induction s as [|y s IH]; [done|].
  apply not_elem_of_cons in Hno as [Hne Hno].
  rewrite filter_cons_True by done. by rewrite IH.
Qed.

Lemma dispatch_world_connected userId payload w sockets :
  io w = true →
  userSocketMap w !! userId = Some sockets → sockets ≠ [] →
  dispatch_world userId payload w
  = set_emitted (emitted w ++ ((λ s, (s, payload)) <$> sockets)) w.
Proof.
  intros Hio Hm Hne. unfold dispatch_world, live_connections. rewrite Hio, Hm. simpl.
  by destruct sockets.
Qed.

(** X5. A dispatch to a user with live connections emits the payload once on
    each of them, in the order they registered, writes nothing to the
    console and keeps the directory as it is. *)
Theorem dispatch_reaches_every_connection userId payload w sockets :
  io w = true →
  userSocketMap w !! userId = Some sockets → sockets ≠ [] →
  sendNotificationToUser userId payload w
  = (Ok tt, set_emitted (emitted w ++ ((λ s, (s, payload)) <$> sockets)) w).
Proof.
  intros Hio Hm Hne. rewrite sendNotificationToUser_run.
  by rewrite (dispatch_world_connected userId payload w sockets).
Qed.

Lemma dispatch_reaches_every_connection_witness :
  io sample_world = true
  ∧ userSocketMap sample_world !! "u1" = Some ["socket-a"]
  ∧ emitted (sendNotificationToUser "u1" sample_payload sample_world).2
    = [("socket-a", sample_payload)]
  ∧ console (sendNotificationToUser "u1" sample_payload sample_world).2 = [].
Proof.
  assert (userSocketMap sample_world !! "u1" = Some ["socket-a"]) as Hm by reflexivity.
  split; [reflexivity|]. split; [exact Hm|].
  rewrite (dispatch_reaches_every_connection "u1" sample_payload sample_world
             ["socket-a"] eq_refl Hm); [|discriminate].
  split; reflexivity.
Defined.

(** X6. Register, then dispatch: once a socket has registered for a user, a
    dispatch to that user reaches it, along with the sockets the user had
    before, and nothing goes to the console. *)
Theorem registered_socket_receives socketId userId payload w :
  io w = true → userId ≠ "" →
  sendNotificationToUser userId payload (on_register socketId userId w).2
  = (Ok tt,
     set_emitted
       (emitted w ++ ((λ s, (s, payload)) <$> set_add socketId (connections_of w userId)))
       (on_register socketId userId w).2)
  ∧ (socketId, payload) ∈ emitted
      (sendNotificationToUser userId payload (on_register socketId userId w).2).2.
Proof.
  intros Hio Hne. rewrite on_register_run by done. simpl.
  rewrite sendNotificationToUser_run.
  rewrite (dispatch_world_connected userId payload _
             (set_add socketId (connections_of w userId)));
    [|done|simpl; by rewrite lookup_insert_eq|apply set_add_not_nil].
  split; [done|]. simpl. apply elem_of_app. right.
  apply list_elem_of_fmap. exists socketId. split; [done|apply set_add_elem].
Qed.

Lemma registered_socket_receives_witness :
  io sample_world = true ∧ "u2" ≠ ""
  ∧ emitted (sendNotificationToUser "u2" sample_payload
               (on_register "socket-b" "u2" sample_world).2).2
    = [("socket-b", sample_payload)].
Proof.
  split; [reflexivity|]. split; [discriminate|].
  destruct (registered_socket_receives "socket-b" "u2" sample_payload sample_world eq_refl)
    as [Hrun _]; [discriminate|].
  rewrite Hrun. reflexivity.
Defined.

(** X7. Register is idempotent: a socket that registers twice for a user is in
    the directory once. *)
Theorem register_twice_is_once socketId userId w :
  on_register socketId userId (on_register socketId userId w).2
  = (Ok tt, (on_register socketId userId w).2).
Proof.
  destruct (String.eqb_spec userId "") as [->|Hne]; [done|].
  rewrite (on_register_run socketId userId w) by done. simpl.
  rewrite on_register_run by done. unfold connections_of. simpl.
  rewrite lookup_insert_eq. simpl. by rewrite set_add_twice, insert_insert_eq.
Qed.

(** X8. The handlers keep the directory in shape: after a register or a
    disconnect no user with an empty id is listed, and every user listed has
    at least one socket id and none twice. *)
Theorem directory_stays_ok socketId userId w :
  directory_ok (userSocketMap w) →
  directory_ok (userSocketMap (on_register socketId userId w).2)
  ∧ directory_ok (userSocketMap (on_disconnect socketId w).2).
Proof.
  intros [Hempty Hok]. split.
  - destruct (String.eqb_spec userId "") as [->|Hne]; [done|].
    rewrite on_register_run by done. simpl. split.
    + by rewrite lookup_insert_ne.
    + intros u sockets. rewrite lookup_insert. case_decide as Hu.
      * intros [= <-]. split; [apply set_add_not_nil|]. apply set_add_NoDup.
        unfold connections_of. destruct (userSocketMap w !! userId) as [s|] eqn:Hs; simpl.
        -- by destruct (Hok _ _ Hs).
        -- apply NoDup_nil_2.
      * apply Hok.
  - split.
    + by rewrite on_disconnect_lookup, Hempty.
    + intros u sockets. rewrite on_disconnect_lookup.
      destruct (userSocketMap w !! u) as [s|] eqn:Hs; simpl; [|done].
      destruct (Hok _ _ Hs) as [Hne Hnd]. unfold drop_socket. case_bool_decide.
      * destruct (filter _ s) eqn:Hf; [done|]. intros [= <-]. split; [done|].
        rewrite <- Hf. by apply NoDup_filter.
      * by intros [= <-].
Qed.

Lemma directory_stays_ok_witness :
  directory_ok (userSocketMap sample_world)
  ∧ directory_ok (userSocketMap (on_register "socket-b" "u1" sample_world).2)
  ∧ directory_ok (userSocketMap (on_disconnect "socket-a" sample_world).2).
Proof.
  assert (directory_ok (userSocketMap sample_world)) as Hok.
  { split; [reflexivity|]. intros u sockets. simpl.
    rewrite lookup_singleton. case_decide; [|done]. intros [= <-].
    split; [discriminate|]. apply NoDup_singleton. }
  split; [exact Hok|]. split.
  - exact (proj1 (directory_stays_ok "socket-b" "u1" sample_world Hok)).
  - exact (proj2 (directory_stays_ok "socket-a" "u1" sample_world Hok)).
Defined.

(** X9. Register, then disconnect: when a socket that nobody had registers for
    a user and then disconnects, the directory is what it was before; a user
    for whom it was the only socket is not listed any more. *)
Theorem register_disconnect_restores socketId userId w :
  directory_ok (userSocketMap w) →
  socket_unknown (userSocketMap w) socketId →
  userSocketMap (on_disconnect socketId (on_register socketId userId w).2).2
  = userSocketMap w.
Proof.
  intros [Hempty Hok] Hunknown. apply map_eq. intros u.
  rewrite on_disconnect_lookup.
  destruct (String.eqb_spec userId "") as [->|Hne].
  - rewrite on_register_empty. simpl.
    destruct (userSocketMap w !! u) as [s|] eqn:Hs; simpl; [|done].
    apply drop_socket_unknown. by eapply Hunknown.
  - rewrite on_register_run by done. simpl. rewrite lookup_insert.
    case_decide as Hu.
    + subst u. simpl. unfold connections_of, drop_socket.
      rewrite bool_decide_eq_true_2 by apply set_add_elem.
      destruct (userSocketMap w !! userId) as [s|] eqn:Hs; simpl.
      * pose proof (Hunknown _ _ Hs) as Hno. destruct (Hok _ _ Hs) as [Hnil _].
        unfold set_add. rewrite bool_decide_eq_false_2 by done.
        rewrite filter_other_snoc by done. by destruct s.
      * unfold set_add. rewrite bool_decide_eq_false_2 by apply not_elem_of_nil. simpl.
        rewrite (filter_cons_False (λ y, y ≠ socketId) socketId [])
          by (intros H; by apply H).
        done.
    + destruct (userSocketMap w !! u) as [s|] eqn:Hs; simpl; [|done].
      apply drop_socket_unknown. by eapply Hunknown.
Qed.

Lemma register_disconnect_restores_witness :
  directory_ok (userSocketMap sample_world)
  ∧ socket_unknown (userSocketMap sample_world) "socket-b"
  ∧ userSocketMap (on_disconnect "socket-b" (on_register "socket-b" "u2" sample_world).2).2
    = userSocketMap sample_world
  ∧ userSocketMap (on_register "socket-b" "u2" sample_world).2 !! "u2" = Some ["socket-b"].
Proof.
  assert (∀ u sockets, userSocketMap sample_world !! u = Some sockets → sockets = ["socket-a"])
    as Honly.
  { intros u sockets. simpl. rewrite lookup_singleton. case_decide; [|done]. by intros [= <-]. }
  assert (directory_ok (userSocketMap sample_world)) as Hok.
  { split; [reflexivity|]. intros u sockets ->%Honly.
    split; [discriminate|]. apply NoDup_singleton. }
  assert (socket_unknown (userSocketMap sample_world) "socket-b") as Hunknown.
  { intros u sockets ->%Honly [=]%list_elem_of_singleton. }
  split; [exact Hok|]. split; [exact Hunknown|]. split.
  - exact (register_disconnect_restores "socket-b" "u2" sample_world Hok Hunknown).
  - reflexivity.
Defined.

(** X10. After a socket has disconnected it is in nobody's set, so no dispatch,
    to whichever user, emits anything on it. *)
Theorem disconnected_socket_receives_nothing socketId userId payload w :
  socket_unknown (userSocketMap (on_disconnect socketId w).2) socketId
  ∧ ∃ sent,
      emitted (sendNotificationToUser userId payload (on_disconnect socketId w).2).2
      = (emitted w ++ sent)%list
      ∧ Forall (λ e, e.1 ≠ socketId) sent.
Proof.
  assert (socket_unknown (userSocketMap (on_disconnect socketId w).2) socketId) as Hgone.
  { intros u sockets. rewrite on_disconnect_lookup.
    destruct (userSocketMap w !! u) as [s|]; simpl; [|done]. apply drop_socket_gone. }
  split; [exact Hgone|].
  rewrite sendNotificationToUser_run. cbn [snd].
  rewrite dispatch_world_emitted.
  eexists. split; [done|].
  apply Forall_fmap, Forall_forall. intros s Hs. simpl.
  unfold live_connections in Hs. destruct (io _); [|by apply elem_of_nil in Hs].
  destruct (userSocketMap (on_disconnect socketId w).2 !! userId) as [sockets|] eqn:Hl;
    simpl in Hs; [|by apply elem_of_nil in Hs].
  intros ->. by apply (Hgone _ _ Hl).
Qed.

(** The scenario: u1 is connected on socket-a and disconnects; the hint
    that s1 then sends is stored but goes out on no socket. *)
Example hint_after_disconnect :
  let w := (on_disconnect "socket-a" sample_world).2 in
  userSocketMap w = ∅
  ∧ emitted (sendHintOrFeedback (sample_create_hint "u1") w).2 = []
  ∧ hint_id <$> hints (sendHintOrFeedback (sample_create_hint "u1") w).2 = ["hint-1"]
  ∧ ce_level <$> console (sendHintOrFeedback (sample_create_hint "u1") w).2 = [ConsoleWarn].
Proof. repeat split; vm_compute; reflexivity. Qed.

(** ** What the controllers do to the world *)

Lemma audit_world_users params w : users (audit_world params w) = users w.
Proof. unfold audit_world. by destruct (auditStoreError w). Qed.

Lemma audit_world_supportRequests params w :
  supportRequests (audit_world params w) = supportRequests w.
Proof. unfold audit_world. by destruct (auditStoreError w). Qed.

Lemma audit_world_progressLogs params w :
  progressLogs (audit_world params w) = progressLogs w.
Proof. unfold audit_world. by destruct (auditStoreError w). Qed.

Lemma audit_world_userSocketMap params w :
  userSocketMap (audit_world params w) = userSocketMap w.
Proof. unfold audit_world. by destruct (auditStoreError w). Qed.

Lemma audit_world_auditLogs params w :
  ∃ new, auditLogs (audit_world params w) = (auditLogs w ++ new)%list ∧ (length new ≤ 1)%nat.
Proof.
  unfold audit_world. destruct (auditStoreError w); simpl.
  - exists []. rewrite app_nil_r. split; [done|simpl; lia].
  - eexists [_]. split; [done|simpl; lia].
Qed.

Lemma dispatch_world_users userId payload w :
  users (dispatch_world userId payload w) = users w.
Proof. unfold dispatch_world. by destruct (live_connections w userId). Qed.

Lemma dispatch_world_supportRequests userId payload w :
  supportRequests (dispatch_world userId payload w) = supportRequests w.
Proof. unfold dispatch_world. by destruct (live_connections w userId). Qed.

Lemma dispatch_world_progressLogs userId payload w :
  progressLogs (dispatch_world userId payload w) = progressLogs w.
Proof. unfold dispatch_world. by destruct (live_connections w userId). Qed.

Lemma dispatch_world_userSocketMap userId payload w :
  userSocketMap (dispatch_world userId payload w) = userSocketMap w.
Proof. unfold dispatch_world. by destruct (live_connections w userId). Qed.

(** The three ways [sendHintOrFeedback] ends. *)
Lemma sendHintOrFeedback_cases req w :
  (∃ status msg, sendHintOrFeedback req w = (Ok (Send status (ErrorBody msg)), w))
  ∨ (∃ e, sendHintOrFeedback req w
          = (Ok (NextError e), caught_world "Error sending hint/feedback:" e w))
  ∨ (∃ userId stepId message r,
       body_stepId req = Some stepId ∧ stepId ≠ ""
       ∧ body_message req = Some message ∧ message ≠ ""
       ∧ params_userId req = Some userId
       ∧ user_exists w userId
       ∧ open_request_of w userId = Some r
       ∧ sendHintOrFeedback req w
         = (Ok (sent_reply (created_hint req w userId r stepId message)),
            dispatch_world userId
              (hint_notification req stepId message
                 (created_hint req w userId r stepId message))
              (audit_world
                 (send_hint_audit req userId r stepId
                    (created_hint req w userId r stepId message))
                 (set_idSeq (S (idSeq w))
                    (set_hints (hints w ++ [created_hint req w userId r stepId message]) w))))).
Proof.
  destruct (truthy (body_stepId req)) eqn:Hs;
    [|left; rewrite sendHintOrFeedback_invalid by (by left); by eauto].
  destruct (truthy (body_message req)) eqn:Hm;
    [|left; rewrite sendHintOrFeedback_invalid by (by right); by eauto].
  destruct (params_userId req) as [userId|] eqn:Hp;
    [|right; left; rewrite sendHintOrFeedback_no_param by done; by eauto].
  destruct (find (λ u, String.eqb (user_id u) userId) (users w)) eqn:Hu;
    [apply find_user_Some in Hu
    |apply find_user_None in Hu; left;
     rewrite (sendHintOrFeedback_no_user req w userId) by done; by eauto].
  destruct (open_request_of w userId) as [r|] eqn:Hr;
    [|apply find_open_None in Hr; left;
      rewrite (sendHintOrFeedback_no_request req w userId) by done; by eauto].
  apply truthy_Some in Hs as (stepId & Hs & ?).
  apply truthy_Some in Hm as (message & Hm & ?).
  right; right. exists userId, stepId, message, r.
  by rewrite (sendHintOrFeedback_created req w userId stepId message r).
Qed.

(** The two ways [getUserHints] ends. *)
Lemma getUserHints_cases req w :
  getUserHints req w = (Ok (Send 400 (ErrorBody "User ID is required.")), w)
  ∨ (∃ userId,
       hints_target req = Some userId ∧ userId ≠ ""
       ∧ getUserHints req w
         = (Ok (Send 200 (HintsBody (select_hint <$> hints_of w userId))),
            audit_world (actor_params req VIEW_HINT_LIST (Some userId) []) w)).
Proof.
  destruct (truthy (hints_target req)) eqn:Ht;
    [|left; by rewrite getUserHints_no_target].
  apply truthy_Some in Ht as (userId & Ht & ?).
  right. exists userId. by rewrite (getUserHints_listed req w userId).
Qed.

(** The three ways [markHintAsViewed] ends. *)
Lemma markHintAsViewed_cases req w :
  (∃ status msg, markHintAsViewed req w = (Ok (Send status (ErrorBody msg)), w))
  ∨ (∃ e, markHintAsViewed req w
          = (Ok (NextError e), caught_world "Error marking hint as viewed:" e w))
  ∨ (∃ hintId h,
       params_hintId req = Some hintId
       ∧ lookup_hint w hintId = Some h
       ∧ actor_is_subject_or_admin req h
       ∧ markHintAsViewed req w
         = (Ok (viewed_reply h (clock w)),
            audit_world (view_hint_audit req h (clock w))
              (set_hints (viewed_rows hintId (clock w) (hints w)) w))).
Proof.
  destruct (params_hintId req) as [hintId|] eqn:Hp;
    [|right; left; rewrite markHintAsViewed_no_param by done; by eauto].
  destruct (lookup_hint w hintId) as [h|] eqn:Hl;
    [|apply lookup_hint_None in Hl; left;
      rewrite (markHintAsViewed_no_hint req w hintId) by done; by eauto].
  destruct (id_is req (Some (hint_userId h)) || role_literal_is req "admin") eqn:Hok.
  - apply actor_is_subject_or_admin_spec in Hok. right; right. exists hintId, h.
    by rewrite (markHintAsViewed_viewed req w hintId h).
  - left. rewrite (markHintAsViewed_denied req w hintId h); [by eauto|done..|].
    rewrite <- actor_is_subject_or_admin_spec. by rewrite Hok.
Qed.

(** The three ways [getUserProgress] ends. *)
Lemma getUserProgress_cases req w :
  (∃ status msg, getUserProgress req w = (Ok (Send status (ErrorBody msg)), w))
  ∨ (∃ e, getUserProgress req w
          = (Ok (NextError e), caught_world "Error fetching user progress:" e w))
  ∨ (∃ userId u r,
       params_userId req = Some userId
       ∧ find (λ u, String.eqb (user_id u) userId) (users w) = Some u
       ∧ open_request_of w userId = Some r
       ∧ getUserProgress req w
         = (Ok (progress_reply u r (progress_of w userId)),
            audit_world (view_progress_audit req userId r (clock w)) w)).
Proof.
  destruct (params_userId req) as [userId|] eqn:Hp;
    [|right; left; rewrite getUserProgress_no_param by done; by eauto].
  destruct (find (λ u, String.eqb (user_id u) userId) (users w)) as [u|] eqn:Hu;
    [|apply find_user_None in Hu; left;
      rewrite (getUserProgress_no_user req w userId) by done; by eauto].
  destruct (open_request_of w userId) as [r|] eqn:Hr;
    [|apply find_open_None in Hr; apply find_user_Some in Hu; left;
      rewrite (getUserProgress_no_request req w userId) by done; by eauto].
  right; right. exists userId, u, r.
  by rewrite (getUserProgress_viewed req w userId u r).
Qed.

(** ** Reading does not write *)

(** X11. Listing hints and viewing progress only read: whatever the request and
    however it ends, users, support requests, hints, progress logs, the
    connection directory and what went out on the sockets are as before.
    Only the audit log and the console can differ. *)
Theorem reading_leaves_store_unchanged req w :
  store_unchanged w (getUserHints req w).2
  ∧ store_unchanged w (getUserProgress req w).2.
Proof.
  unfold store_unchanged. split.
  - destruct (getUserHints_cases req w) as [-> | (userId & _ & _ & ->)]; [done|].
    cbn [snd].
    by rewrite audit_world_users, audit_world_supportRequests, audit_world_hints,
      audit_world_progressLogs, audit_world_userSocketMap, audit_world_emitted.
  - destruct (getUserProgress_cases req w)
      as [(? & ? & ->) | [(? & ->) | (userId & u & r & _ & _ & _ & ->)]]; [done..|].
    cbn [snd].
    by rewrite audit_world_users, audit_world_supportRequests, audit_world_hints,
      audit_world_progressLogs, audit_world_userSocketMap, audit_world_emitted.
Qed.

(** ** The life of a hint *)

Lemma hint_kept_refl h : hint_kept h h.
Proof. by repeat split. Qed.

Lemma hint_kept_viewed t h : hint_kept h (with_viewed VIEWED (Some t) h).
Proof. by repeat split. Qed.

Lemma Forall2_hint_kept_refl l : Forall2 hint_kept l l.
Proof. induction l; constructor; [apply hint_kept_refl|done]. Qed.

Lemma update_row_kept id f l h' l' :
  (∀ h, hint_kept h (f h)) →
  update_row id f l = Some (h', l') → Forall2 hint_kept l l'.
Proof.
  intros Hf. revert h' l'. induction l as [|h l IH]; intros h' l'; simpl; [done|].
  destruct (String.eqb (hint_id h) id).
  - intros [= <- <-]. constructor; [apply Hf|apply Forall2_hint_kept_refl].
  - destruct (update_row id f l) as [[h'' l'']|] eqn:Hu; simpl; [|done].
    intros [= <- <-]. constructor; [apply hint_kept_refl|by eapply IH].
Qed.

Lemma viewed_rows_kept id t l : Forall2 hint_kept l (viewed_rows id t l).
Proof.
  unfold viewed_rows.
  destruct (update_row id (with_viewed VIEWED (Some t)) l) as [[h' l']|] eqn:Hu.
  - eapply update_row_kept; [|done]. apply hint_kept_viewed.
  - apply Forall2_hint_kept_refl.
Qed.

Lemma created_hint_solicited req w userId r stepId message :
  open_request_of w userId = Some r →
  solicited w (created_hint req w userId r stepId message).
Proof.
  intros (Hin & Hu & Hopen)%find_open_Some. split; [done|]. split; [done|]. by exists r.
Qed.

(** What each controller does to the hint table. *)
Lemma controllers_keep_hints h req w :
  is_controller h →
  ∃ kept added,
    hints (h req w).2 = (kept ++ added)%list
    ∧ Forall2 hint_kept (hints w) kept
    ∧ (length added ≤ 1)%nat
    ∧ Forall (solicited w) added
    ∧ supportRequests (h req w).2 = supportRequests w.
Proof.
  assert (∀ w', hints w' = hints w → supportRequests w' = supportRequests w →
    ∃ kept added, hints w' = (kept ++ added)%list
      ∧ Forall2 hint_kept (hints w) kept ∧ (length added ≤ 1)%nat
      ∧ Forall (solicited w) added ∧ supportRequests w' = supportRequests w) as Hsame.
  { intros w' Hh Hr. exists (hints w), []. rewrite app_nil_r.
    repeat split; [done|apply Forall2_hint_kept_refl|simpl; lia|constructor|done]. }
  intros [-> | [-> | [-> | ->]]].
  - destruct (sendHintOrFeedback_cases req w)
      as [(? & ? & ->) | [(? & ->) |
          (userId & stepId & message & r & _ & _ & _ & _ & _ & _ & Hr & ->)]];
      [by apply Hsame..|].
    cbn [snd]. rewrite dispatch_world_hints, audit_world_hints,
      dispatch_world_supportRequests, audit_world_supportRequests. simpl.
    exists (hints w), [created_hint req w userId r stepId message].
    repeat split; [apply Forall2_hint_kept_refl|simpl; lia|].
    constructor; [by apply created_hint_solicited|constructor].
  - destruct (getUserHints_cases req w) as [-> | (userId & _ & _ & ->)];
      [by apply Hsame|].
    apply Hsame; cbn [snd]; [apply audit_world_hints|apply audit_world_supportRequests].
  - destruct (markHintAsViewed_cases req w)
      as [(? & ? & ->) | [(? & ->) | (hintId & h & _ & _ & _ & ->)]];
      [by apply Hsame..|].
    cbn [snd]. rewrite audit_world_hints, audit_world_supportRequests. simpl.
    exists (viewed_rows hintId (clock w) (hints w)), []. rewrite app_nil_r.
    repeat split; [apply viewed_rows_kept|simpl; lia|constructor].
  - destruct (getUserProgress_cases req w)
      as [(? & ? & ->) | [(? & ->) | (userId & u & r & _ & _ & _ & ->)]];
      [by apply Hsame..|].
    apply Hsame; cbn [snd]; [apply audit_world_hints|apply audit_world_supportRequests].
Qed.

(** X12. No controller deletes a hint or rewrites one: every row stays in its
    place, with at most its status and viewedAt changed, and a hint that is
    VIEWED stays VIEWED. At most one row is added by a call, and a row that
    is added is UNREAD and belongs to a user who then has the OPEN support
    request it refers to: no hint without a request for help. *)
Theorem hints_are_kept_and_solicited h req w :
  is_controller h →
  ∃ kept added,
    hints (h req w).2 = (kept ++ added)%list
    ∧ Forall2 hint_kept (hints w) kept
    ∧ (length added ≤ 1)%nat
    ∧ Forall (solicited w) added.
Proof.
  intros Hc. destruct (controllers_keep_hints h req w Hc)
    as (kept & added & ? & ? & ? & ? & _).
  by exists kept, added.
Qed.

Lemma hints_are_kept_and_solicited_witness :
  is_controller markHintAsViewed
  ∧ ∃ kept added,
      hints (markHintAsViewed (sample_mark_viewed sample_user1) sample_world_viewed).2
      = (kept ++ added)%list
      ∧ Forall2 hint_kept (hints sample_world_viewed) kept
      ∧ (length added ≤ 1)%nat
      ∧ Forall (solicited sample_world_viewed) added.
Proof.
  assert (is_controller markHintAsViewed) as Hc by (right; right; left; reflexivity).
  split; [exact Hc|].
  exact (hints_are_kept_and_solicited markHintAsViewed (sample_mark_viewed sample_user1)
           sample_world_viewed Hc).
Defined.

Lemma Forall2_hint_kept_back l l' h' :
  Forall2 hint_kept l l' → h' ∈ l' → ∃ h, h ∈ l ∧ hint_kept h h'.
Proof.
  induction 1 as [|h x l l' Hk _ IH]; [by intros ?%elem_of_nil|].
  intros [->|Hin]%elem_of_cons.
  - exists h. split; [left|done].
  - destruct (IH Hin) as (h0 & ? & ?). exists h0. split; [by right|done].
Qed.

(** X13. Every hint refers to a support request of its own user, and the
    controllers keep it so. *)
Theorem hints_stay_linked h req w :
  is_controller h → hints_linked w → hints_linked (h req w).2.
Proof.
  intros Hc Hlinked h' Hin.
  destruct (controllers_keep_hints h req w Hc)
    as (kept & added & Hhints & Hkept & _ & Hadded & ->).
  rewrite Hhints in Hin. apply elem_of_app in Hin as [Hin|Hin].
  - destruct (Forall2_hint_kept_back _ _ _ Hkept Hin)
      as (h0 & Hin0 & _ & Huser & Hreq & _).
    destruct (Hlinked h0 Hin0) as (r & ? & ? & ?). exists r. by rewrite Huser, Hreq.
  - rewrite Forall_forall in Hadded.
    destruct (Hadded h' Hin) as (_ & _ & r & ? & ? & ? & _). by exists r.
Qed.

Lemma hints_stay_linked_witness :
  is_controller sendHintOrFeedback
  ∧ hints_linked sample_world
  ∧ hints_linked (sendHintOrFeedback (sample_create_hint "u1") sample_world).2.
Proof.
  assert (is_controller sendHintOrFeedback) as Hc by (left; reflexivity).
  assert (hints_linked sample_world) as Hl by (by intros h ?%elem_of_nil).
  split; [exact Hc|]. split; [exact Hl|].
  exact (hints_stay_linked sendHintOrFeedback (sample_create_hint "u1") sample_world Hc Hl).
Defined.

(** ** A hint that is sent *)

Lemma sent_reply_inv h msg sent :
  Ok (sent_reply h) = Ok (Send 201 (SentBody msg sent)) →
  sh_id sent = hint_id h ∧ sh_message sent = hint_message h
  ∧ sh_stepId sent = hint_stepId h ∧ sh_status sent = hint_status h.
Proof. unfold sent_reply. by intros [= _ <-]. Qed.

(** X14. A successful CreateHint pushes one notification of the new hint (its
    id, message, step, puzzle and creation time) to each live connection of
    the target user and to nobody else; with no live connection nothing
    goes out. *)
Theorem createHint_notifies_target req w :
  succeeded (sendHintOrFeedback req w).1 = true →
  ∃ h, hints (sendHintOrFeedback req w).2 = (hints w ++ [h])%list
       ∧ params_userId req = Some (hint_userId h)
       ∧ emitted (sendHintOrFeedback req w).2
         = (emitted w ++ ((λ s, (s, payload_of h)) <$> live_connections w (hint_userId h)))%list.
Proof.
  intros (userId & stepId & message & r & Hs & ? & Hm & ? & Hp & Hu & Hr)
    %sendHintOrFeedback_success_inv.
  rewrite (sendHintOrFeedback_created req w userId stepId message r) by done.
  exists (created_hint req w userId r stepId message). cbn [snd].
  by rewrite dispatch_world_hints, audit_world_hints, dispatch_world_emitted,
    audit_world_live, audit_world_emitted.
Qed.

Lemma createHint_notifies_target_witness :
  succeeded (sendHintOrFeedback (sample_create_hint "u1") sample_world).1 = true
  ∧ n_message ∘ snd <$> emitted (sendHintOrFeedback (sample_create_hint "u1") sample_world).2
    = ["try the left lever"]
  ∧ ∃ h, hints (sendHintOrFeedback (sample_create_hint "u1") sample_world).2
         = (hints sample_world ++ [h])%list
         ∧ params_userId (sample_create_hint "u1") = Some (hint_userId h)
         ∧ emitted (sendHintOrFeedback (sample_create_hint "u1") sample_world).2
           = (emitted sample_world
              ++ ((λ s, (s, payload_of h)) <$> live_connections sample_world (hint_userId h)))%list.
Proof.
  split; [vm_compute; reflexivity|]. split; [vm_compute; reflexivity|].
  apply (createHint_notifies_target (sample_create_hint "u1") sample_world).
  vm_compute; reflexivity.
Defined.

(** X15. The reply and the audit event of a successful CreateHint describe the
    hint that was stored: the reply carries its id, step, puzzle, message,
    creation time and status; the event names the actor, the target user,
    and in its metadata the hint and the support request. *)
Theorem createHint_reply_and_event_agree req w a :
  user req = Some a → actor_id a ≠ "" →
  auditStoreError w = None →
  succeeded (sendHintOrFeedback req w).1 = true →
  ∃ h ev,
    hints (sendHintOrFeedback req w).2 = (hints w ++ [h])%list
    ∧ auditLogs (sendHintOrFeedback req w).2 = (auditLogs w ++ [ev])%list
    ∧ (sendHintOrFeedback req w).1
      = Ok (Send 201 (SentBody "Hint/feedback sent successfully."
              {| sh_id := hint_id h; sh_stepId := hint_stepId h;
                 sh_puzzleId := hint_puzzleId h; sh_message := hint_message h;
                 sh_sentAt := hint_createdAt h; sh_status := UNREAD |}))
    ∧ body_stepId req = Some (hint_stepId h)
    ∧ body_message req = Some (hint_message h)
    ∧ body_puzzleId req = hint_puzzleId h
    ∧ al_actorId ev = actor_id a
    ∧ al_actorRole ev = role_value (actor_role a)
    ∧ al_action ev = SEND_HINT
    ∧ al_targetUserId ev = Some (hint_userId h)
    ∧ al_metadata ev = Some (sent_metadata h).
Proof.
  intros Ha Hid Hstore
    (userId & stepId & message & r & Hs & ? & Hm & ? & Hp & Hu & Hr)%sendHintOrFeedback_success_inv.
  rewrite (sendHintOrFeedback_created req w userId stepId message r) by done.
  exists (created_hint req w userId r stepId message). cbn [fst snd].
  rewrite dispatch_world_hints, audit_world_hints, dispatch_world_auditLogs.
  unfold audit_world. simpl. rewrite Hstore. eexists. split; [done|]. split; [done|].
  simpl. rewrite Ha. simpl.
  destruct (String.eqb_spec (actor_id a) ""); [done|].
  repeat split; try done. by destruct (actor_role a).
Qed.

Lemma createHint_reply_and_event_agree_witness :
  user (sample_create_hint "u1") = Some sample_specialist
  ∧ auditStoreError sample_world = None
  ∧ al_actorId <$> auditLogs (sendHintOrFeedback (sample_create_hint "u1") sample_world).2
    = ["s1"]
  ∧ ∃ h ev,
      hints (sendHintOrFeedback (sample_create_hint "u1") sample_world).2
        = (hints sample_world ++ [h])%list
      ∧ auditLogs (sendHintOrFeedback (sample_create_hint "u1") sample_world).2
        = (auditLogs sample_world ++ [ev])%list
      ∧ al_targetUserId ev = Some (hint_userId h)
      ∧ al_metadata ev = Some (sent_metadata h).
Proof.
  split; [reflexivity|]. split; [reflexivity|]. split; [vm_compute; reflexivity|].
  destruct (createHint_reply_and_event_agree (sample_create_hint "u1") sample_world
              sample_specialist eq_refl) as (h & ev & Hh & He & Hrest);
    [discriminate|reflexivity|vm_compute; reflexivity|].
  exists h, ev. split; [exact Hh|]. split; [exact He|].
  destruct Hrest as (_ & _ & _ & _ & _ & _ & _ & Ht & Hm). by split.
Defined.

(** ** Marking a hint viewed *)

Lemma update_row_other id f l h' l' id' :
  (∀ h, hint_id (f h) = hint_id h) → id' ≠ id →
  update_row id f l = Some (h', l') →
  find (λ h, String.eqb (hint_id h) id') l' = find (λ h, String.eqb (hint_id h) id') l.
Proof.
  intros Hf Hne. revert h' l'. induction l as [|h l IH]; intros h' l'; simpl; [done|].
  destruct (String.eqb_spec (hint_id h) id) as [Heq|Hother].
  - intros [= <- <-]. simpl. rewrite Hf, Heq.
    by destruct (String.eqb_spec id id'); [congruence|].
  - destruct (update_row id f l) as [[h'' l'']|] eqn:Hu; simpl; [|done].
    intros [= <- <-]. simpl. by rewrite (IH _ _ eq_refl).
Qed.

Lemma update_row_length id f l h' l' :
  update_row id f l = Some (h', l') → length l' = length l.
Proof.
  revert h' l'. induction l as [|h l IH]; intros h' l'; simpl; [done|].
  destruct (String.eqb (hint_id h) id).
  - by intros [= <- <-].
  - destruct (update_row id f l) as [[h'' l'']|] eqn:Hu; simpl; [|done].
    intros [= <- <-]. simpl. by rewrite (IH _ _ eq_refl).
Qed.

(** X16. An authorized MarkViewed changes one row and no other: the hint named
    gets the status VIEWED and the time of the call as viewedAt and keeps
    the rest of its fields; every other hint is read back as before, and
    the table keeps its length. The audit event names the subject of the
    hint as target. *)
Theorem markViewed_changes_one_row req w hintId h :
  params_hintId req = Some hintId →
  lookup_hint w hintId = Some h →
  actor_is_subject_or_admin req h →
  lookup_hint (markHintAsViewed req w).2 hintId = Some (with_viewed VIEWED (Some (clock w)) h)
  ∧ (∀ other, other ≠ hintId →
       lookup_hint (markHintAsViewed req w).2 other = lookup_hint w other)
  ∧ length (hints (markHintAsViewed req w).2) = length (hints w)
  ∧ (auditStoreError w = None →
     ∃ ev, auditLogs (markHintAsViewed req w).2 = (auditLogs w ++ [ev])%list
           ∧ al_action ev = VIEW_HINT
           ∧ al_targetUserId ev = Some (hint_userId h)
           ∧ al_metadata ev
             = Some [("hintId", MString hintId); ("viewedAt", MDate (clock w))]).
Proof.
  intros Hp Hl Hok. rewrite (markHintAsViewed_viewed req w hintId h) by done. cbn [snd].
  destruct (viewed_rows_lookup w hintId (clock w) h Hl) as [Hupdate Hfound].
  destruct (lookup_hint_Some _ _ _ Hl) as [_ Hid].
  unfold lookup_hint. rewrite audit_world_hints. simpl.
  split; [done|]. split; [|split].
  - intros other Hother.
    by rewrite (update_row_other hintId (with_viewed VIEWED (Some (clock w))) (hints w)
                  _ _ other (λ _, eq_refl) Hother Hupdate).
  - by rewrite (update_row_length _ _ _ _ _ Hupdate).
  - intros Hstore. unfold audit_world. simpl. rewrite Hstore. simpl.
    eexists. split; [done|]. by rewrite Hid.
Qed.

Lemma markViewed_changes_one_row_witness :
  params_hintId (mark_viewed_request sample_user1 "h3") = Some "h3"
  ∧ lookup_hint sample_world_many "h3" = Some (sample_hint "h3" "u1" 30)
  ∧ actor_is_subject_or_admin (mark_viewed_request sample_user1 "h3") (sample_hint "h3" "u1" 30)
  ∧ (hint_id <$> hints (markHintAsViewed (mark_viewed_request sample_user1 "h3")
                         sample_world_many).2,
     hint_status <$> hints (markHintAsViewed (mark_viewed_request sample_user1 "h3")
                              sample_world_many).2)
    = (["h1"; "h2"; "h3"; "h4"], [UNREAD; UNREAD; VIEWED; UNREAD])
  ∧ lookup_hint (markHintAsViewed (mark_viewed_request sample_user1 "h3")
                   sample_world_many).2 "h3"
    = Some (with_viewed VIEWED (Some 1000%Z) (sample_hint "h3" "u1" 30)).
Proof.
  assert (actor_is_subject_or_admin (mark_viewed_request sample_user1 "h3")
            (sample_hint "h3" "u1" 30)) as Hok.
  { exists sample_user1. split; [reflexivity|]. by left. }
  split; [reflexivity|]. split; [reflexivity|]. split; [exact Hok|].
  split; [vm_compute; reflexivity|].
  exact (proj1 (markViewed_changes_one_row (mark_viewed_request sample_user1 "h3")
                  sample_world_many "h3" (sample_hint "h3" "u1" 30) eq_refl eq_refl Hok)).
Defined.

(** ** Sending, then viewing and listing *)

Lemma find_snoc {A} (P : A → bool) l x :
  find P (l ++ [x]) = match find P l with
                      | Some y => Some y
                      | None => if P x then Some x else None
                      end.
Proof.
  induction l as [|y l IH]; simpl; [done|]. by destruct (P y).
Qed.

(** X17. Create, then mark viewed: the id that CreateHint returns, when the
    database assigned an id that no other hint has, is one the target user
    can mark viewed; the call succeeds with that id, the status VIEWED and
    the time of the call. *)
Theorem created_hint_can_be_viewed req w a msg sent t :
  (sendHintOrFeedback req w).1 = Ok (Send 201 (SentBody msg sent)) →
  ¬ hint_exists w (sh_id sent) →
  params_userId req = Some (actor_id a) →
  (markHintAsViewed (mark_viewed_request a (sh_id sent))
     (set_clock t (sendHintOrFeedback req w).2)).1
  = Ok (Send 200 (ViewedBody "Hint marked as viewed."
          {| vh_id := sh_id sent; vh_status := VIEWED; vh_viewedAt := Some t |})).
Proof.
  intros Hreply Hfresh%lookup_hint_None Hp.
  destruct (sendHintOrFeedback_success_inv req w)
    as (userId & stepId & message & r & Hs & ? & Hm & ? & Hp' & Hu & Hr);
    [by rewrite Hreply|].
  rewrite (sendHintOrFeedback_created req w userId stepId message r) in Hreply |- * by done.
  cbn [fst snd] in Hreply |- *.
  apply sent_reply_inv in Hreply as (Hid & _).
  set (h := created_hint req w userId r stepId message) in *.
  assert (lookup_hint (set_clock t
            (dispatch_world userId (hint_notification req stepId message h)
               (audit_world (send_hint_audit req userId r stepId h)
                  (set_idSeq (S (idSeq w)) (set_hints (hints w ++ [h]) w)))))
            (sh_id sent) = Some h) as Hl.
  { unfold lookup_hint in *. simpl. rewrite dispatch_world_hints, audit_world_hints. simpl.
    rewrite find_snoc, Hfresh. by rewrite Hid, String.eqb_refl. }
  rewrite (markHintAsViewed_viewed _ _ (sh_id sent) h); [|done|done|].
  - cbn [fst]. unfold viewed_reply. simpl. by rewrite Hid.
  - exists a. split; [done|]. left. simpl. congruence.
Qed.

Lemma created_hint_can_be_viewed_witness :
  (∃ msg sent,
     (sendHintOrFeedback (sample_create_hint "u1") sample_world).1
     = Ok (Send 201 (SentBody msg sent)) ∧ sh_id sent = "hint-1")
  ∧ ¬ hint_exists sample_world "hint-1"
  ∧ (markHintAsViewed (mark_viewed_request sample_user1 "hint-1")
       (set_clock 2000 (sendHintOrFeedback (sample_create_hint "u1") sample_world).2)).1
    = Ok (Send 200 (ViewedBody "Hint marked as viewed."
            {| vh_id := "hint-1"; vh_status := VIEWED; vh_viewedAt := Some 2000%Z |})).
Proof.
  assert (¬ hint_exists sample_world "hint-1") as Hfresh.
  { intros (h & Hin & _). by apply elem_of_nil in Hin. }
  split; [eexists _, _; split; vm_compute; reflexivity|]. split; [exact Hfresh|].
  eapply (created_hint_can_be_viewed (sample_create_hint "u1") sample_world sample_user1
            _ {| sh_id := "hint-1"; sh_stepId := "step-3"; sh_puzzleId := None;
                 sh_message := "try the left lever"; sh_sentAt := 1000;
                 sh_status := UNREAD |} 2000);
    [vm_compute; reflexivity|exact Hfresh|reflexivity].
Defined.

(** X18. Create, then list: after a successful CreateHint for a user, that
    user's list of hints has one entry more, and among the entries is the
    new hint, UNREAD, with the id and the message of the reply. *)
Theorem created_hint_is_listed req w a reqL msg sent :
  (sendHintOrFeedback req w).1 = Ok (Send 201 (SentBody msg sent)) →
  params_userId req = Some (actor_id a) →
  user reqL = Some a → actor_role a = USER → actor_id a ≠ "" →
  ∃ views,
    (getUserHints reqL (sendHintOrFeedback req w).2).1 = Ok (Send 200 (HintsBody views))
    ∧ length views = S (length (hints_of w (actor_id a)))
    ∧ ∃ v, v ∈ views ∧ hv_id v = sh_id sent ∧ hv_status v = UNREAD
           ∧ hv_message v = sh_message sent ∧ hv_stepId v = sh_stepId sent.
Proof.
  intros Hreply Hp Ha Hrole Hne.
  destruct (sendHintOrFeedback_success_inv req w)
    as (userId & stepId & message & r & Hs & ? & Hm & ? & Hp' & Hu & Hr);
    [by rewrite Hreply|].
  assert (userId = actor_id a) as -> by congruence.
  rewrite (sendHintOrFeedback_created req w (actor_id a) stepId message r) in Hreply |- *
    by done.
  cbn [fst snd] in Hreply |- *.
  apply sent_reply_inv in Hreply as (Hid & Hmsg & Hstep & Hst).
  set (h := created_hint req w (actor_id a) r stepId message) in *.
  rewrite (getUserHints_listed reqL _ (actor_id a)); [|by apply hints_target_user|done].
  cbn [fst]. eexists. split; [done|].
  assert (hints_of (dispatch_world (actor_id a) (hint_notification req stepId message h)
            (audit_world (send_hint_audit req (actor_id a) r stepId h)
               (set_idSeq (S (idSeq w)) (set_hints (hints w ++ [h]) w)))) (actor_id a)
          ≡ₚ h :: hints_of w (actor_id a)) as Hperm.
  { unfold hints_of. rewrite dispatch_world_hints, audit_world_hints. simpl.
    rewrite !orderByDesc_perm, filter_app.
    rewrite (filter_cons_True (λ x, hint_userId x = actor_id a) h []) by done.
    rewrite filter_nil. by rewrite <- Permutation_cons_append. }
  split.
  - by rewrite length_fmap, Hperm.
  - exists (select_hint h). split.
    + apply list_elem_of_fmap. exists h. split; [done|]. rewrite Hperm. left.
    + simpl. by rewrite Hid, Hmsg, Hstep.
Qed.

Lemma created_hint_is_listed_witness :
  actor_role sample_user1 = USER ∧ actor_id sample_user1 ≠ ""
  ∧ hv_id <$> match (getUserHints (request_of sample_user1)
                       (sendHintOrFeedback (sample_create_hint "u1") sample_world_many).2).1 with
              | Ok (Send _ (HintsBody views)) => views
              | _ => []
              end = ["hint-1"; "h3"; "h4"; "h1"]
  ∧ ∃ views,
      (getUserHints (request_of sample_user1)
         (sendHintOrFeedback (sample_create_hint "u1") sample_world_many).2).1
      = Ok (Send 200 (HintsBody views))
      ∧ length views = S (length (hints_of sample_world_many "u1"))
      ∧ ∃ v, v ∈ views ∧ hv_id v = "hint-1" ∧ hv_status v = UNREAD
             ∧ hv_message v = "try the left lever" ∧ hv_stepId v = "step-3".
Proof.
  split; [reflexivity|]. split; [discriminate|]. split; [vm_compute; reflexivity|].
  eapply (created_hint_is_listed (sample_create_hint "u1") sample_world_many sample_user1
            (request_of sample_user1) _
            {| sh_id := "hint-1"; sh_stepId := "step-3"; sh_puzzleId := None;
               sh_message := "try the left lever"; sh_sentAt := 1000;
               sh_status := UNREAD |});
    [vm_compute; reflexivity|reflexivity|reflexivity|reflexivity|discriminate].
Defined.

(** ** Listing by a support specialist *)

Lemma hints_target_staff req a :
  user req = Some a →
  actor_role a = SUPPORT_SPECIALIST ∨ actor_role a = ADMIN →
  hints_target req = query_userId req.
Proof. unfold hints_target, role_literal_is. by intros -> [-> | ->]. Qed.

(** X19. A support specialist or admin lists the hints of the user named in the
    query string, never their own by default: without a name the call is
    rejected with 400 and nothing is recorded; with a name the reply holds
    exactly that user's hints, newest first, and the audit event names that
    user as target. *)
Theorem specialist_lists_named_user req w a :
  user req = Some a →
  actor_role a = SUPPORT_SPECIALIST ∨ actor_role a = ADMIN →
  (is_empty (query_userId req) →
     getUserHints req w = (Ok (Send 400 (ErrorBody "User ID is required.")), w))
  ∧ (∀ target, query_userId req = Some target → target ≠ "" →
     ∃ hs, (getUserHints req w).1 = Ok (Send 200 (HintsBody (select_hint <$> hs)))
           ∧ Forall (λ h, hint_userId h = target) hs
           ∧ hs ≡ₚ filter (λ h, hint_userId h = target) (hints w)
           ∧ StronglySorted newer_or_same hs
           ∧ (auditStoreError w = None →
              ∃ ev, auditLogs (getUserHints req w).2 = (auditLogs w ++ [ev])%list
                    ∧ al_action ev = VIEW_HINT_LIST
                    ∧ al_targetUserId ev = Some target)).
Proof.
  intros Ha Hrole. pose proof (hints_target_staff req a Ha Hrole) as Ht. split.
  - intros Hempty%is_empty_truthy. apply getUserHints_no_target. by rewrite Ht.
  - intros target Hq Hne.
    rewrite (getUserHints_listed req w target) by (by rewrite ?Ht). cbn [fst snd].
    exists (hints_of w target). split; [done|]. split; [apply hints_of_owned|].
    split; [apply orderByDesc_perm|]. split; [apply (orderByDesc_sorted hint_createdAt)|].
    intros Hstore. unfold audit_world. rewrite Hstore. by eexists.
Qed.

Lemma specialist_lists_named_user_witness :
  user (sample_specialist_list (Some "u2")) = Some sample_specialist
  ∧ (actor_role sample_specialist = SUPPORT_SPECIALIST ∨ actor_role sample_specialist = ADMIN)
  ∧ getUserHints (sample_specialist_list None) sample_world_many
    = (Ok (Send 400 (ErrorBody "User ID is required.")), sample_world_many)
  ∧ ∃ hs, (getUserHints (sample_specialist_list (Some "u2")) sample_world_many).1
          = Ok (Send 200 (HintsBody (select_hint <$> hs)))
          ∧ Forall (λ h, hint_userId h = "u2") hs.
Proof.
  split; [reflexivity|]. split; [by left|].
  destruct (specialist_lists_named_user (sample_specialist_list None) sample_world_many
              sample_specialist eq_refl (or_introl eq_refl)) as [Hnone _].
  destruct (specialist_lists_named_user (sample_specialist_list (Some "u2")) sample_world_many
              sample_specialist eq_refl (or_introl eq_refl)) as [_ Hsome].
  split; [apply Hnone; by left|].
  destruct (Hsome "u2" eq_refl) as (hs & Hreply & Hall & _); [discriminate|].
  by exists hs.
Defined.

(** ** Viewing progress *)

(** X20. ViewProgress of an unknown user fails with NotFoundError, and of a user
    without an OPEN support request with ForbiddenError; in both cases the
    world is left as it was: nothing is read out and nothing is recorded. *)
Theorem viewProgress_rejections req w userId :
  params_userId req = Some userId →
  (¬ user_exists w userId →
     fails_with (getUserProgress req w).1 NotFoundError ∧ (getUserProgress req w).2 = w)
  ∧ (user_exists w userId → ¬ has_open_request w userId →
     fails_with (getUserProgress req w).1 ForbiddenError ∧ (getUserProgress req w).2 = w).
Proof.
  intros Hp. unfold fails_with. split.
  - intros Hu. rewrite (getUserProgress_no_user req w userId) by done. by eauto.
  - intros Hu Hr. rewrite (getUserProgress_no_request req w userId) by done. by eauto.
Qed.

Lemma viewProgress_rejections_witness :
  params_userId (sample_view_progress "u9") = Some "u9"
  ∧ ¬ user_exists sample_world "u9"
  ∧ fails_with (getUserProgress (sample_view_progress "u9") sample_world).1 NotFoundError
  ∧ (getUserProgress (sample_view_progress "u9") sample_world).2 = sample_world.
Proof.
  assert (¬ user_exists sample_world "u9") as Hu by (apply find_user_None; reflexivity).
  split; [reflexivity|]. split; [exact Hu|].
  exact (proj1 (viewProgress_rejections (sample_view_progress "u9") sample_world "u9" eq_refl)
           Hu).
Defined.

Lemma find_first_of_sorted {A} (key : A → Z) (P : A → bool) l x :
  StronglySorted (desc key) l → find P l = Some x →
  x ∈ l ∧ P x = true ∧ ∀ y, y ∈ l → P y = true → (key y ≤ key x)%Z.
Proof.
  induction 1 as [|z l Hs IH Hall]; simpl; [done|].
  destruct (P z) eqn:Hz.
  - intros [= <-]. split; [left|]. split; [done|].
    intros y [->|Hin]%elem_of_cons _; [lia|].
    rewrite Forall_forall in Hall. by apply Hall.
  - intros Hf. destruct (IH Hf) as (Hin & HP & Hmax). split; [by right|]. split; [done|].
    intros y [->|Hy]%elem_of_cons Hy'; [congruence|by apply Hmax].
Qed.

Lemma find_none_iff {A} (P : A → bool) l :
  find P l = None ↔ ∀ y, y ∈ l → P y = false.
Proof.
  induction l as [|z l IH]; simpl.
  - split; [by intros _ y ?%elem_of_nil|done].
  - destruct (P z) eqn:Hz.
    + split; [done|]. intros Hall. specialize (Hall z (list_elem_of_here _ _)). congruence.
    + rewrite IH. split.
      * intros Hall y [->|Hy]%elem_of_cons; [done|by apply Hall].
      * intros Hall y Hy. apply Hall. by right.
Qed.

(** X21. ViewProgress of a user with an OPEN support request replies with exactly
    that user's progress logs, most recently updated first, and with the
    stuck step: none iff no log of the user has the status STUCK, and
    otherwise the STUCK log that was updated last. *)
Theorem viewProgress_reports_latest_stuck req w userId :
  params_userId req = Some userId →
  user_exists w userId → has_open_request w userId →
  ∃ u r logs stuck,
    (getUserProgress req w).1
    = Ok (Send 200 (ProgressBody u (sr_id r) (sr_createdAt r) logs stuck))
    ∧ u ∈ users w ∧ user_id u = userId
    ∧ open_request_of w userId = Some r
    ∧ logs ≡ₚ select_progress <$> filter (λ l, pl_userId l = userId) (progressLogs w)
    ∧ StronglySorted updated_later_or_same logs
    ∧ (stuck = None ↔ ∀ l, l ∈ logs → pv_status l ≠ "STUCK")
    ∧ (∀ s, stuck = Some s →
         ∃ l, l ∈ logs ∧ pv_status l = "STUCK" ∧ s = stuck_of l
              ∧ ∀ l', l' ∈ logs → pv_status l' = "STUCK" →
                  (pv_updatedAt l' ≤ pv_updatedAt l)%Z).
Proof.
  intros Hp Hu Hr.
  destruct (find (λ u, String.eqb (user_id u) userId) (users w)) as [u|] eqn:Hfu;
    [|by apply find_user_None in Hfu].
  destruct (open_request_of w userId) as [r|] eqn:Hfr; [|by apply find_open_None in Hfr].
  rewrite (getUserProgress_viewed req w userId u r) by done. cbn [fst].
  assert (StronglySorted updated_later_or_same (progress_of w userId)) as Hsorted.
  { unfold progress_of.
    apply (StronglySorted_fmap select_progress (desc pl_updatedAt)); [done|].
    apply orderByDesc_sorted. }
  exists u, r, (progress_of w userId),
    (stuck_of <$> find (λ log, String.eqb (pv_status log) "STUCK") (progress_of w userId)).
  split; [done|].
  destruct (find_some _ _ Hfu) as [Hin Hid%String.eqb_eq].
  split; [by apply list_elem_of_In|]. split; [done|]. split; [done|].
  split; [unfold progress_of; by rewrite orderByDesc_perm|]. split; [done|]. split.
  - rewrite fmap_None, find_none_iff. split.
    + intros Hnone l Hl Hst. specialize (Hnone l Hl). by rewrite Hst in Hnone.
    + intros Hnone l Hl. specialize (Hnone l Hl). by apply String.eqb_neq.
  - intros s (l & Hfind & ->)%fmap_Some.
    destruct (find_first_of_sorted pv_updatedAt _ _ _ Hsorted Hfind)
      as (Hl & Hst%String.eqb_eq & Hmax).
    exists l. repeat split; [done..|].
    intros l' Hl' Hst'. apply Hmax; [done|]. by apply String.eqb_eq.
Qed.

Lemma viewProgress_reports_latest_stuck_witness :
  params_userId (sample_view_progress "u1") = Some "u1"
  ∧ user_exists sample_world_progress "u1" ∧ has_open_request sample_world_progress "u1"
  ∧ match (getUserProgress (sample_view_progress "u1") sample_world_progress).1 with
    | Ok (Send _ (ProgressBody _ _ _ logs stuck)) =>
        (pv_id <$> logs, sv_stepId <$> stuck)
    | _ => ([], None)
    end = (["p5"; "p4"; "p2"; "p1"], Some "step-3")
  ∧ ∃ u r logs stuck,
      (getUserProgress (sample_view_progress "u1") sample_world_progress).1
      = Ok (Send 200 (ProgressBody u (sr_id r) (sr_createdAt r) logs stuck))
      ∧ StronglySorted updated_later_or_same logs.
Proof.
  assert (user_exists sample_world_progress "u1") as Hu
    by (eapply find_user_Some; reflexivity).
  assert (has_open_request sample_world_progress "u1") as Hr.
  { destruct (find_open_Some sample_world_progress "u1"
                {| sr_id := "r1"; sr_userId := "u1"; sr_status := OPEN; sr_createdAt := 200 |}
                eq_refl) as (? & ? & ?).
    by eexists. }
  split; [reflexivity|]. split; [exact Hu|]. split; [exact Hr|].
  split; [vm_compute; reflexivity|].
  destruct (viewProgress_reports_latest_stuck (sample_view_progress "u1")
              sample_world_progress "u1" eq_refl Hu Hr)
    as (u & r & logs & stuck & Hreply & _ & _ & _ & _ & Hsorted & _).
  by exists u, r, logs, stuck.
Defined.

(** ** The list the user sees *)

Lemma insertDesc_fmap {A} (key : A → Z) (f : A → A) x (l : list A) :
  (∀ y, key (f y) = key y) →
  insertDesc key (f x) (f <$> l) = f <$> insertDesc key x l.
Proof.
  intros Hkey. induction l as [|y l IH]; csimpl; [done|].
  rewrite !Hkey. destruct (key y <=? key x)%Z; csimpl; [done|]. by rewrite IH.
Qed.

Lemma orderByDesc_fmap {A} (key : A → Z) (f : A → A) (l : list A) :
  (∀ y, key (f y) = key y) →
  orderByDesc key (f <$> l) = f <$> orderByDesc key l.
Proof.
  intros Hkey. unfold orderByDesc. induction l as [|x l IH]; csimpl; [done|].
  rewrite IH. by apply insertDesc_fmap.
Qed.

Lemma filter_fmap_same {A} (P : A → Prop) `{∀ x, Decision (P x)} (f : A → A) (l : list A) :
  (∀ x, P (f x) ↔ P x) → filter P (f <$> l) = f <$> filter P l.
Proof.
  intros HP. induction l as [|x l IH]; csimpl; [done|].
  rewrite !filter_cons. destruct (decide (P x)) as [Hx|Hx].
  - rewrite decide_True by (by apply HP). csimpl. by rewrite IH.
  - rewrite decide_False by (by rewrite HP). done.
Qed.

(** With distinct ids, the update of one row is a map over the table. *)
Lemma fmap_viewed_other id t (l : list Hint) :
  id ∉ hint_id <$> l →
  (λ h, if String.eqb (hint_id h) id then with_viewed VIEWED (Some t) h else h) <$> l = l.
Proof.
  induction l as [|h l IH]; csimpl; [done|].
  intros [Hne Hnotin]%not_elem_of_cons.
  destruct (String.eqb_spec (hint_id h) id); [congruence|]. by rewrite IH.
Qed.

(** With distinct ids, the update of one row is a map over the table. *)
Lemma viewed_rows_fmap id t l :
  NoDup (hint_id <$> l) →
  viewed_rows id t l
  = (λ h, if String.eqb (hint_id h) id then with_viewed VIEWED (Some t) h else h) <$> l.
Proof.
  unfold viewed_rows. induction l as [|h l IH]; csimpl; [done|].
  intros [Hnotin Hnodup]%NoDup_cons.
  destruct (String.eqb_spec (hint_id h) id) as [Heq|Hne].
  - rewrite fmap_viewed_other; [done|congruence].
  - specialize (IH Hnodup).
    destruct (update_row id (with_viewed VIEWED (Some t)) l) as [[h' l']|]; csimpl.
    all: by rewrite <- IH.
Qed.

(** X22. The list on the user's screen keeps up with the server. When MarkViewed
    of one of the user's hints has succeeded and the hint ids are distinct,
    the list that the page holds after its local update is the list that
    the server would now return, given that both stamp the same time; the
    ids and the statuses agree whatever the time, and the row no longer
    offers the button. *)
Theorem local_list_matches_server req w a hintId h :
  unique_hint_ids w →
  user req = Some a → params_hintId req = Some hintId →
  lookup_hint w hintId = Some h → hint_userId h = actor_id a →
  select_hint <$> hints_of (markHintAsViewed req w).2 (actor_id a)
  = markAsViewed_update hintId (clock w) (select_hint <$> hints_of w (actor_id a))
  ∧ (∀ now,
       (λ v, (hv_id v, hv_status v)) <$>
         (select_hint <$> hints_of (markHintAsViewed req w).2 (actor_id a))
       = (λ v, (hv_id v, hv_status v)) <$>
           markAsViewed_update hintId now (select_hint <$> hints_of w (actor_id a)))
  ∧ (∀ now v,
       v ∈ markAsViewed_update hintId now (select_hint <$> hints_of w (actor_id a)) →
       hv_id v = hintId → offers_mark_as_viewed v = false).
Proof.
  intros Hunique Ha Hp Hl Hsubject.
  rewrite (markHintAsViewed_viewed req w hintId h); [|done..|by exists a; eauto].
  cbn [snd]. unfold hints_of at 1 3. rewrite audit_world_hints. simpl.
  rewrite (viewed_rows_fmap _ _ _ Hunique).
  rewrite filter_fmap_same by (intros x; by destruct (String.eqb (hint_id x) hintId)).
  rewrite orderByDesc_fmap by (intros x; by destruct (String.eqb (hint_id x) hintId)).
  fold (hints_of w (actor_id a)). unfold markAsViewed_update.
  rewrite <- !list_fmap_compose. split; [|split].
  - apply list_fmap_ext. intros _ x _. simpl.
    by destruct (String.eqb (hint_id x) hintId).
  - intros now. rewrite <- !list_fmap_compose. apply list_fmap_ext. intros _ x _. simpl.
    by destruct (String.eqb (hint_id x) hintId).
  - intros now v (x & -> & _)%list_elem_of_fmap. simpl.
    destruct (String.eqb_spec (hv_id x) hintId); [done|]. by intros ?.
Qed.

Lemma local_list_matches_server_witness :
  unique_hint_ids sample_world_many
  ∧ lookup_hint sample_world_many "h3" = Some (sample_hint "h3" "u1" 30)
  ∧ (λ v, (hv_id v, hv_status v)) <$>
      markAsViewed_update "h3" 7777 (select_hint <$> hints_of sample_world_many "u1")
    = [("h3", VIEWED); ("h4", UNREAD); ("h1", UNREAD)]
  ∧ select_hint <$> hints_of
      (markHintAsViewed (mark_viewed_request sample_user1 "h3") sample_world_many).2 "u1"
    = markAsViewed_update "h3" 1000 (select_hint <$> hints_of sample_world_many "u1").
Proof.
  assert (unique_hint_ids sample_world_many) as Hunique.
  { unfold unique_hint_ids. simpl.
    repeat (apply NoDup_cons; split;
            [rewrite ?elem_of_cons, elem_of_nil; intros Hin;
             repeat destruct Hin as [Hin|Hin]; done|]).
    apply NoDup_nil_2. }
  split; [exact Hunique|]. split; [reflexivity|]. split; [vm_compute; reflexivity|].
  exact (proj1 (local_list_matches_server (mark_viewed_request sample_user1 "h3")
                  sample_world_many sample_user1 "h3" (sample_hint "h3" "u1" 30)
                  Hunique eq_refl eq_refl eq_refl eq_refl)).
Defined.

(** ** Routes and controllers *)

Lemma run_chain_last (h : Handler) req w : run_chain [h] req w = h req w.
Proof.
  simpl. unfold mbind, M_bind.
  by destruct (h req w) as [[[status body|req'|e]|e] w'].
Qed.

(** X23. For an actor the middleware lets through, a route does what its
    controller does with the claims of the token as [req.user]: the two
    specialist routes for a support specialist or admin, the two others
    also for a USER whose request carries no user id. What holds of the
    controllers holds of the routes. *)
Theorem routes_run_controllers req w a :
  bearer req = GoodToken a →
  (actor_role a = SUPPORT_SPECIALIST ∨ actor_role a = ADMIN →
     route_post_hint req w = sendHintOrFeedback (set_user (Some a) req) w
     ∧ route_get_progress req w = getUserProgress (set_user (Some a) req) w
     ∧ route_get_hint req w = getUserHints (set_user (Some a) req) w
     ∧ route_post_hint_view req w = markHintAsViewed (set_user (Some a) req) w)
  ∧ (actor_role a = USER → (¬ ∃ uid, carries_userId req uid) →
     route_get_hint req w = getUserHints (set_user (Some a) req) w
     ∧ route_post_hint_view req w = markHintAsViewed (set_user (Some a) req) w).
Proof.
  intros Hb.
  assert (∀ (gate h : Handler),
    gate (set_user (Some a) req) w = (Ok (Next (set_user (Some a) req)), w) →
    run_chain [authenticateJWT; gate; h] req w = h (set_user (Some a) req) w) as Hchain.
  { intros gate h Hgate.
    change (run_chain [authenticateJWT; gate; h] req w)
      with ((authenticateJWT req ≫= λ r,
               match r with
               | Next req' =>
                   gate req' ≫= λ r0,
                     match r0 with Next req'0 => run_chain [h] req'0 | _ => mret r0 end
               | _ => mret r
               end) w).
    unfold authenticateJWT. rewrite Hb.
    rewrite (bind_ok _ _ _ (Next (set_user (Some a) req)) w) by done.
    rewrite (bind_ok _ _ _ _ _ Hgate).
    apply run_chain_last. }
  split.
  - intros Hrole.
    assert (authorizeSupportSpecialist (set_user (Some a) req) w
            = (Ok (Next (set_user (Some a) req)), w)) as Hstaff.
    { unfold authorizeSupportSpecialist, role_is. simpl. by destruct Hrole as [-> | ->]. }
    assert (authorizeUserOrSupportSpecialist (set_user (Some a) req) w
            = (Ok (Next (set_user (Some a) req)), w)) as Hany.
    { unfold authorizeUserOrSupportSpecialist, role_is. simpl.
      by destruct Hrole as [-> | ->]. }
    unfold route_post_hint, route_get_progress, route_get_hint, route_post_hint_view.
    repeat split; by apply Hchain.
  - intros Hrole Hnone%carries_none_spec.
    assert (authorizeUserOrSupportSpecialist (set_user (Some a) req) w
            = (Ok (Next (set_user (Some a) req)), w)) as Hany.
    { unfold authorizeUserOrSupportSpecialist, role_is, userIdParam in *. simpl.
      rewrite Hrole. simpl. simpl in Hnone. by rewrite Hnone. }
    unfold route_get_hint, route_post_hint_view.
    split; by apply Hchain.
Qed.

Lemma routes_run_controllers_witness :
  bearer (sample_incoming_hint (GoodToken sample_specialist)) = GoodToken sample_specialist
  ∧ route_post_hint (sample_incoming_hint (GoodToken sample_specialist)) sample_world
    = sendHintOrFeedback (sample_create_hint "u1") sample_world
  ∧ hint_sentById <$>
      hints (route_post_hint (sample_incoming_hint (GoodToken sample_specialist))
               sample_world).2
    = [Some "s1"].
Proof.
  split; [reflexivity|].
  destruct (routes_run_controllers (sample_incoming_hint (GoodToken sample_specialist))
              sample_world sample_specialist eq_refl) as [Hstaff _].
  destruct (Hstaff (or_introl eq_refl)) as (Hpost & _).
  rewrite Hpost. split; [reflexivity|vm_compute; reflexivity].
Defined.

(** ** An empty list *)

(** X24. Listing the hints of a user who has none is no error: the reply is 200
    with an empty list, and the call is recorded like any other. *)
Theorem listHints_of_none req w userId :
  hints_target req = Some userId → userId ≠ "" →
  (∀ h, h ∈ hints w → hint_userId h ≠ userId) →
  (getUserHints req w).1 = Ok (Send 200 (HintsBody []))
  ∧ (auditStoreError w = None →
     ∃ ev, auditLogs (getUserHints req w).2 = (auditLogs w ++ [ev])%list
           ∧ al_action ev = VIEW_HINT_LIST ∧ al_targetUserId ev = Some userId).
Proof.
  intros Ht Hne Hnone. rewrite (getUserHints_listed req w userId) by done. cbn [fst snd].
  assert (hints_of w userId = []) as ->.
  { apply Permutation_nil_r. unfold hints_of. rewrite orderByDesc_perm.
    induction (hints w) as [|h l IH]; [done|].
    rewrite filter_cons_False by (apply Hnone; left).
    apply IH. intros h' Hin. apply Hnone. by right. }
  split; [done|]. intros Hstore. unfold audit_world. rewrite Hstore. by eexists.
Qed.

Lemma listHints_of_none_witness :
  hints_target (request_of sample_user2) = Some "u2"
  ∧ "u2" ≠ ""
  ∧ (getUserHints (request_of sample_user2) sample_world).1 = Ok (Send 200 (HintsBody []))
  ∧ al_action <$> auditLogs (getUserHints (request_of sample_user2) sample_world).2
    = [VIEW_HINT_LIST].
Proof.
  split; [reflexivity|]. split; [discriminate|].
  destruct (listHints_of_none (request_of sample_user2) sample_world "u2" eq_refl)
    as [Hreply _]; [discriminate|by intros h ?%elem_of_nil|].
  split; [exact Hreply|vm_compute; reflexivity].
Defined.
